(** * MilkStoreShop: the transaction core of [pos_milk_store.py]

    A shallow embedding of the cart, the catalog maintenance, the checkout
    and the receipt of the point-of-sale program, and the properties of
    its specification settled against it.

    Modelling conventions.
    - A Python float ([Float] columns, cart quantities) is the rational
      [Qc] it stands for.  The arithmetic of [_checkout] and of the cart
      display is binary64: the exact result rounded to the nearest float
      ([round64]).  The model has no infinity and no signed zero: a
      statement on the result of an operation carries the proviso that
      the result is [in_range], and a stored infinity is outside the
      model.  NaN exists only as an answer to a dialog.
    - The SQLAlchemy session is a pair of table sets: [working] is what the
      session sees (identity map and pending changes), [committed] is the
      last committed database.  [session.commit()] copies the first onto
      the second.  The program itself never rolls back; a commit that
      raises does ([rollback]).
    - A message box, an uncaught exception and a receipt are the [outcome]
      of a handler; the state it leaves behind is returned next to it. *)

From Stdlib Require Import QArith Qabs Qcanon Ascii String.
From stdpp Require Import gmap strings list fin_maps pretty sorting.

#[local] Set Warnings "-clear-no-such-hyp".

Local Open Scope Z_scope.
Local Open Scope Qc_scope.

(** ** Database / ORM setup *)

(** [datetime], as far as [%Y-%m-%d %H:%M:%S] reads it. *)
Record datetime := {
  year : Z; month : Z; day : Z; hour : Z; minute : Z; second : Z
}.

(** Row of [products].  The primary key [id] is the key of the table's
    [gmap]. *)
Module Product.
Record t := {
  name : string;
  price_per_unit : Qc;
  stock : Qc
}.
End Product.
Abbreviation Product := Product.t.

(** Row of [orders]. *)
Module Order.
Record t := {
  id : Z;
  timestamp : datetime;
  total : Qc
}.
End Order.
Abbreviation Order := Order.t.

(** Row of [order_items]. *)
Module OrderItem.
Record t := {
  id : Z;
  order_id : Z;
  product_id : Z;
  quantity : Qc;
  line_total : Qc
}.
End OrderItem.
Abbreviation OrderItem := OrderItem.t.

Record Tables := {
  products : gmap Z Product;
  orders : list Order;
  order_items : list OrderItem
}.

Record Session := {
  working : Tables;
  committed : Tables
}.

(** [session.commit()]: every pending change becomes durable. *)
Definition commit (s : Session) : Session :=
  {| working := working s; committed := working s |}.

(** What a [session.commit()] that raises leaves: the transaction is
    rolled back, and the pending changes are gone with it. *)
Definition rollback (s : Session) : Session :=
  {| working := committed s; committed := committed s |}.

(** The integer primary keys are SQLite rowids: one more than the largest
    key in the table, 1 in an empty table. *)
Definition next_rowid (ids : list Z) : Z := (foldr Z.max 0 ids + 1)%Z.

(** [session.get(Product, pid)] *)
Definition get_product (t : Tables) (pid : Z) : option Product :=
  products t !! pid.

(** [session.query(Product).filter_by(name=name).first()]; [name] is a
    unique column, so at most one row matches. *)
Definition query_by_name (t : Tables) (nm : string) : option (Z * Product) :=
  head (filter (λ kp, Product.name kp.2 = nm) (map_to_list (products t))).

Definition set_products (m : gmap Z Product) (t : Tables) : Tables :=
  {| products := m; orders := orders t; order_items := order_items t |}.

(** [session.add(Order())] followed by the flush that gives it its key;
    [timestamp] and [total] take their column defaults. *)
Definition add_order (now : datetime) (t : Tables) : Order * Tables :=
  let o := {| Order.id := next_rowid (Order.id <$> orders t);
              Order.timestamp := now; Order.total := 0 |} in
  (o, {| products := products t; orders := orders t ++ [o];
         order_items := order_items t |}).

(** [session.add(OrderItem(...))].  The key is the one the next flush
    gives the row: pending rows are inserted in the order they were
    added, and no row of this table is ever deleted. *)
Definition add_item (oid pid : Z) (qty line : Qc) (t : Tables) : Tables :=
  let it := {| OrderItem.id := next_rowid (OrderItem.id <$> order_items t);
               OrderItem.order_id := oid; OrderItem.product_id := pid;
               OrderItem.quantity := qty; OrderItem.line_total := line |} in
  {| products := products t; orders := orders t;
     order_items := order_items t ++ [it] |}.

(** [p.stock = v] on the row of key [pid] *)
Definition set_stock (pid : Z) (p : Product) (v : Qc) (t : Tables) : Tables :=
  set_products
    (<[pid := {| Product.name := Product.name p;
                 Product.price_per_unit := Product.price_per_unit p;
                 Product.stock := v |}]> (products t)) t.

(** [order.total = v] on the row of key [oid] *)
Definition set_total (oid : Z) (v : Qc) (t : Tables) : Tables :=
  {| products := products t;
     orders := (λ o, if decide (Order.id o = oid)
                     then {| Order.id := Order.id o;
                             Order.timestamp := Order.timestamp o;
                             Order.total := v |}
                     else o) <$> orders t;
     order_items := order_items t |}.

(** [order.items]: the rows of [order_items] that point to the order, in
    insertion order. *)
Definition items_of (t : Tables) (oid : Z) : list OrderItem :=
  filter (λ it, OrderItem.order_id it = oid) (order_items t).

(** ** Seed default products *)

Definition def_products : list (string * Qc) :=
  [ ("Milk (per kg)",     Q2Qc 150);
    ("Yogurt (per kg)",   Q2Qc 200);
    ("Sweets (per dish)", Q2Qc 100);
    ("Dhai Bhale",        Q2Qc 120);
    ("Cream Chaat",       Q2Qc 130);
    ("Rice Pudding",      Q2Qc 90);
    ("Desi Ghee (250g)",  Q2Qc 250) ].

Definition add_product_row (p : Product) (t : Tables) : Tables :=
  set_products
    (<[next_rowid (map_to_list (products t)).*1 := p]> (products t)) t.

Definition empty_tables : Tables :=
  {| products := ∅; orders := []; order_items := [] |}.

(** The module-level [session], after the seeding of an empty database. *)
Definition session : Session :=
  commit
    {| working :=
         foldl (λ t np, add_product_row
                          {| Product.name := np.1;
                             Product.price_per_unit := np.2;
                             Product.stock := Q2Qc 100 |} t)
               empty_tables def_products;
       committed := empty_tables |}.

(** ** Outcomes of a handler *)

Inductive exception :=
  AttributeError | IndexError | KeyError | IntegrityError.

Inductive outcome :=
| Returned                                  (* plain [return] *)
| ShowInfo (title message : string)         (* [messagebox.showinfo] *)
| ShowWarning (title message : string)      (* [messagebox.showwarning] *)
| ShowError (title message : string)        (* [messagebox.showerror] *)
| Raised (e : exception)                    (* uncaught, left to Tk *)
| Receipt (order : Order) (text : string).  (* [save_receipt] ran *)

(** The error kinds of the specification, as the program reports them. *)
Definition EmptyCartError : outcome := ShowInfo "Info" "No items selected".
Definition InsufficientStockError (product_name : string) : outcome :=
  ShowError "Error" ("Not enough stock for " +:+ product_name).
Definition ValidationError : outcome := ShowError "Error" "Invalid input".

(** ** Python floats *)

(** The nearest integer, a tie going to the even neighbour *)
Definition round_half_even (x : Q) : Z :=
  let n := Qnum x in
  let d := Z.pos (Qden x) in
  let q := (n / d)%Z in
  let r := (n mod d)%Z in
  if (2 * r <? d)%Z then q
  else if (d <? 2 * r)%Z then (q + 1)%Z
  else if Z.even q then q else (q + 1)%Z.

(** [2 ^ e], for an exponent of either sign *)
Definition pow2 (e : Z) : Q :=
  if (0 <=? e)%Z then inject_Z (2 ^ e) else 1 # Z.to_pos (2 ^ (- e)).

(** The binary64 nearest to a positive rational [a]: with [e] the exponent
    that puts [a / 2^e] between 2^52 and 2^53, and no less than -1074
    (below, the floats are evenly spaced), [a / 2^e] is rounded to an
    integer, ties to even. *)
Definition round64_pos (a : Q) : Q :=
  let e0 := (Z.log2 (Qnum a) - Z.log2 (Z.pos (Qden a)) - 52)%Z in
  let e1 := if Qle_bool (pow2 52) (a * pow2 (- e0))%Q
            then e0 else (e0 - 1)%Z in
  let e := Z.max e1 (-1074) in
  (inject_Z (round_half_even (a * pow2 (- e))%Q) * pow2 e)%Q.

(** Rounding to nearest, ties to even, as binary64 arithmetic does *)
Definition round64 (x : Qc) : Qc :=
  if bool_decide (0 < x) then Q2Qc (round64_pos x)
  else if bool_decide (x < 0) then - Q2Qc (round64_pos (Qabs x))
  else 0.

(** [x + y], [x - y] and [x * y] on floats *)
Definition fadd (x y : Qc) : Qc := round64 (x + y).
Definition fsub (x y : Qc) : Qc := round64 (x - y).
Definition fmul (x y : Qc) : Qc := round64 (x * y).

(** The largest float, (2^53 - 1) * 2^971.  Where an operation rounds to
    more, Python goes on with an infinity, which the model does not
    have: what is stated below of the result of an operation is stated
    of a result [in_range]. *)
Definition float_max : Qc := Q2Qc (inject_Z ((2 ^ 53 - 1) * 2 ^ 971)).

Definition in_range (x : Qc) : Prop := - float_max ≤ x ∧ x ≤ float_max.

#[global] Instance in_range_dec x : Decision (in_range x).
Proof. unfold in_range. apply _. Defined.

(** What [float(...)] returns for the text of a dialog, when it returns:
    a finite number, or NaN (for "nan").  It also returns the infinities
    (for "inf", "1e999"), which are not modelled. *)
Inductive pyfloat := NaN | Fin (q : Qc).
Coercion Fin : Qc >-> pyfloat.
#[local] Arguments Some {A} & a.

(** ** Receipt utility *)

(** ['-'*40] and the padding of a format specification *)
Fixpoint repeat_char (c : Ascii.ascii) (n : nat) : string :=
  match n with
  | O => ""
  | S n => String c (repeat_char c n)
  end.

(** [len(s)], the number of characters: the model holds a string as its
    UTF-8 bytes, of which all but the continuation bytes (10xxxxxx) start
    a character. *)
Fixpoint py_len (s : string) : nat :=
  match s with
  | EmptyString => 0%nat
  | String (Ascii _ _ _ _ _ _ b6 b7) s =>
    ((if b7 && negb b6 then 0 else 1) + py_len s)%nat
  end.

Definition pad (width : nat) (s : string) : string :=
  repeat_char " "%char (width - py_len s).

(** [{s:15s}]: left-aligned in [width] columns, never truncated *)
Definition ljust (width : nat) (s : string) : string := s +:+ pad width s.
(** [{s:>5}]: right-aligned in [width] columns *)
Definition rjust (width : nat) (s : string) : string := pad width s +:+ s.

(** [%m], [%d], [%H], ...: a number zero-padded to [width] digits *)
Definition zero_padded (width : nat) (n : Z) : string :=
  let s := pretty n in
  repeat_char "0"%char (width - String.length s) +:+ s.

(** [{x:.2f}] *)
Definition format_2f (x : Qc) : string :=
  let cents := round_half_even (Qabs x * 100)%Q in
  (if bool_decide (x < 0) then "-" else "")
  +:+ pretty (cents / 100)%Z +:+ "." +:+ zero_padded 2 (cents mod 100)%Z.

(** [{ts:%Y-%m-%d %H:%M:%S}] *)
Definition format_timestamp (ts : datetime) : string :=
  zero_padded 4 (year ts) +:+ "-" +:+ zero_padded 2 (month ts) +:+ "-"
  +:+ zero_padded 2 (day ts) +:+ " " +:+ zero_padded 2 (hour ts) +:+ ":"
  +:+ zero_padded 2 (minute ts) +:+ ":" +:+ zero_padded 2 (second ts).

(** One line per item; [item.product] is [None] when the product row is
    gone, and reading [.name] from it raises. *)
Definition receipt_line (t : Tables) (item : OrderItem) : option string :=
  p ← get_product t (OrderItem.product_id item);
  Some (ljust 15 (Product.name p)
        +:+ " " +:+ rjust 5 (format_2f (OrderItem.quantity item))
        +:+ " × " +:+ rjust 6 (format_2f (Product.price_per_unit p))
        +:+ " = " +:+ rjust 7 (format_2f (OrderItem.line_total item))).

(** The text [save_receipt] writes to [receipt_<id>.txt] and shows; [None]
    when building it raises [AttributeError]. *)
Definition save_receipt (t : Tables) (order : Order) : option string :=
  body ← mapM (receipt_line t) (items_of t (Order.id order));
  Some (String.concat (String "010"%char "")
          (["*** MILK SHOP RECEIPT ***";
            "Order #" +:+ pretty (Order.id order) +:+ "   "
              +:+ format_timestamp (Order.timestamp order);
            repeat_char "-"%char 40]
           ++ body
           ++ [repeat_char "-"%char 40;
               "TOTAL: " +:+ format_2f (Order.total order);
               "Thank you!"])).

(** ** Main POS application *)

(** [self.cart] is a dict: its entries are kept in insertion order, one
    per key. *)
Abbreviation Cart := (list (Z * Qc)).

(** [cart.get(k, default)] *)
Fixpoint cart_get (c : Cart) (k : Z) (default : Qc) : Qc :=
  match c with
  | [] => default
  | (k', v) :: c => if decide (k' = k) then v else cart_get c k default
  end.

(** [cart[k] = v]: an existing key keeps its place, a new one goes last *)
Fixpoint cart_set (c : Cart) (k : Z) (v : Qc) : Cart :=
  match c with
  | [] => [(k, v)]
  | (k', v') :: c =>
    if decide (k' = k) then (k, v) :: c else (k', v') :: cart_set c k v
  end.

(** [del cart[k]]; [None] is the [KeyError] *)
Fixpoint cart_del (c : Cart) (k : Z) : option Cart :=
  match c with
  | [] => None
  | (k', v') :: c =>
    if decide (k' = k) then Some c
    else c' ← cart_del c k; Some ((k', v') :: c')
  end.

Record POSApp := {
  app_session : Session;
  cart : Cart;
  cart_keys : list Z
}.

(** [POSApp.__init__] *)
Definition init : POSApp :=
  {| app_session := session; cart := []; cart_keys := [] |}.

Definition with_session (s : Session) (app : POSApp) : POSApp :=
  {| app_session := s; cart := cart app; cart_keys := cart_keys app |}.

Definition with_working (t : Tables) (app : POSApp) : POSApp :=
  with_session {| working := t; committed := committed (app_session app) |} app.

(** The loop of [update_cart_display]: the keys appended to [cart_keys],
    and whether the loop ran to its end ([p.price_per_unit] raises on the
    first entry whose product is gone). *)
Fixpoint display_loop (t : Tables) (entries : Cart) (keys : list Z)
  : list Z * bool :=
  match entries with
  | [] => (keys, true)
  | (pid, qty) :: rest =>
    match get_product t pid with
    | None => (keys, false)
    | Some p => display_loop t rest (keys ++ [pid])
    end
  end.

Definition update_cart_display (app : POSApp) : POSApp * outcome :=
  let '(keys, finished) :=
    display_loop (working (app_session app)) (cart app) [] in
  ({| app_session := app_session app; cart := cart app; cart_keys := keys |},
   if finished then Returned else Raised AttributeError).

(** [add_to_cart(product, qty)], with [pid] for [product.id].  The sum
    is the exact one: the quantities that the buttons hand over are 0.5,
    1.0 and 1, and binary64 adds such numbers without rounding. *)
Definition add_to_cart (pid : Z) (qty : Qc) (app : POSApp) : POSApp * outcome :=
  update_cart_display
    {| app_session := app_session app;
       cart := cart_set (cart app) pid (cart_get (cart app) pid 0 + qty);
       cart_keys := cart_keys app |}.

(** [_remove_selected], with [sel] the listbox selection *)
Definition _remove_selected (sel : option nat) (app : POSApp)
  : POSApp * outcome :=
  match sel with
  | None => (app, ShowWarning "Warning" "No item selected to remove")
  | Some idx =>
    match cart_keys app !! idx with
    | None => (app, Raised IndexError)
    | Some pid =>
      match cart_del (cart app) pid with
      | None => (app, Raised KeyError)
      | Some c =>
        update_cart_display
          {| app_session := app_session app; cart := c;
             cart_keys := cart_keys app |}
      end
    end
  end.

(** [_clear_cart], with [confirm] the answer to [askyesno] *)
Definition _clear_cart (confirm : bool) (app : POSApp) : POSApp * outcome :=
  if confirm then
    update_cart_display
      {| app_session := app_session app; cart := [];
         cart_keys := cart_keys app |}
  else (app, Returned).

(** [_add_product].  [name] is the answer of the first dialog ([None] when
    it is cancelled); [price] and [stock] are what [float(...)] makes of
    the answers of the other two, [None] when it raises.  A NaN passes
    [float(...)]; the database takes it for NULL, which neither column
    admits, so [session.commit()] raises [IntegrityError]: nothing is
    stored, and the transaction is rolled back with whatever else was
    pending in it.  (The session is then inactive: it raises
    [PendingRollbackError] at every later use, until a
    [session.rollback()] that the program never calls.  The model does
    not follow the program there: see [event].) *)
Definition _add_product (nm : option string) (price stock : option pyfloat)
    (app : POSApp) : POSApp * outcome :=
  match nm with
  | None => (app, Returned)
  | Some nm =>
    if decide (nm = "") then (app, Returned) else
    match price, stock with
    | Some (Fin price), Some (Fin stock) =>
      let t := working (app_session app) in
      let new := {| Product.name := nm; Product.price_per_unit := price;
                    Product.stock := stock |} in
      let t' :=
        match query_by_name t nm with
        | Some (pid, prod) =>
          set_products
            (<[pid := {| Product.name := Product.name prod;
                         Product.price_per_unit := price;
                         Product.stock := stock |}]> (products t)) t
        | None => add_product_row new t
        end in
      (with_session (commit {| working := t';
                               committed := committed (app_session app) |})
                    app,
       Returned)
    | Some _, Some _ =>
      (with_session (rollback (app_session app)) app, Raised IntegrityError)
    | _, _ => (app, ValidationError)
    end
  end.

(** [_delete_product], with [selected] the id shown in the focused row of
    the product list and [confirm] the answer to [askyesno] *)
Definition _delete_product (selected : option Z) (confirm : bool)
    (app : POSApp) : POSApp * outcome :=
  match selected with
  | None => (app, ShowWarning "Warning" "No product selected")
  | Some pid =>
    let t := working (app_session app) in
    match get_product t pid with
    | None => (app, Raised AttributeError)
    | Some prod =>
      if confirm then
        (with_session
           (commit {| working := set_products (delete pid (products t)) t;
                      committed := committed (app_session app) |})
           app,
         Returned)
      else (app, Returned)
    end
  end.

(** The [for pid, qty in self.cart.items()] loop of [_checkout]: the
    tables it leaves, and either the way it was left early or the [total]
    it reached. *)
Fixpoint checkout_loop (oid : Z) (entries : Cart) (total : Qc) (t : Tables)
  : Tables * (outcome + Qc) :=
  match entries with
  | [] => (t, inr total)
  | (pid, qty) :: rest =>
    match get_product t pid with
    | None => (t, inl (Raised AttributeError))
    | Some p =>
      if bool_decide (Product.stock p < qty)
      then (t, inl (InsufficientStockError (Product.name p)))
      else
        let line := fmul (Product.price_per_unit p) qty in
        let total := fadd total line in
        let t := set_stock pid p (fsub (Product.stock p) qty) t in
        let t := add_item oid pid qty line t in
        checkout_loop oid rest total t
    end
  end.

(** [_checkout], with [now] the clock read when the order row is
    inserted *)
Definition _checkout (now : datetime) (app : POSApp) : POSApp * outcome :=
  match cart app with
  | [] => (app, EmptyCartError)
  | _ =>
    let '(order, t) := add_order now (working (app_session app)) in
    let s := commit {| working := t;
                       committed := committed (app_session app) |} in
    match checkout_loop (Order.id order) (cart app) 0 (working s) with
    | (t, inl early) =>
      (with_session {| working := t; committed := committed s |} app, early)
    | (t, inr total) =>
      let order := {| Order.id := Order.id order;
                      Order.timestamp := Order.timestamp order;
                      Order.total := total |} in
      let s := commit {| working := set_total (Order.id order) total t;
                         committed := committed s |} in
      match save_receipt (working s) order with
      | None => (with_session s app, Raised AttributeError)
      | Some text =>
        ({| app_session := s; cart := []; cart_keys := [] |},
         Receipt order text)
      end
    end
  end.

(** ** The operator's actions *)

(** What the operator can do in a session that stays usable: the prices
    and stocks entered are numbers, or texts that [float(...)] rejects
    ([None]).  The NaN that makes the session inactive ([_add_product]) is
    not among them. *)
Inductive event :=
| AddToCart (pid : Z) (qty : Qc)
| RemoveSelected (sel : option nat)
| ClearCart (confirm : bool)
| AddProduct (nm : option string) (price stock : option Qc)
| DeleteProduct (selected : option Z) (confirm : bool)
| Checkout (now : datetime).

Definition handle (e : event) (app : POSApp) : POSApp * outcome :=
  match e with
  | AddToCart pid qty => add_to_cart pid qty app
  | RemoveSelected sel => _remove_selected sel app
  | ClearCart confirm => _clear_cart confirm app
  | AddProduct nm price stock =>
    _add_product nm (Fin <$> price) (Fin <$> stock) app
  | DeleteProduct selected confirm => _delete_product selected confirm app
  | Checkout now => _checkout now app
  end.

(** The state after a sequence of actions, whatever each one reported *)
Definition run (es : list event) (app : POSApp) : POSApp :=
  foldl (λ app e, (handle e app).1) app es.

(** ** Predicates of the specification *)

(** [stock >= 0] on every row of [products] *)
Definition stock_ok (t : Tables) : Prop :=
  map_Forall (λ _ p, 0 ≤ Product.stock p) (products t).

(** ... in what the session sees and in what is committed *)
Definition session_stock_ok (s : Session) : Prop :=
  stock_ok (working s) ∧ stock_ok (committed s).

#[global] Instance stock_ok_dec t : Decision (stock_ok t).
Proof. unfold stock_ok. apply _. Defined.

#[global] Instance session_stock_ok_dec s : Decision (session_stock_ok s).
Proof. unfold session_stock_ok. apply _. Defined.

(** An upsert that is given a negative stock is the one action that is
    told to store one. *)
Definition nonneg_upsert (e : event) : Prop :=
  match e with
  | AddProduct _ _ (Some stock) => 0 ≤ stock
  | _ => True
  end.

(** Every [order_items.order_id] is the key of a row of [orders]. *)
Definition fk_orders (t : Tables) : Prop :=
  Forall (λ it, OrderItem.order_id it ∈ Order.id <$> orders t)
         (order_items t).

(** What the theorems below assume of a state: the foreign key of
    [order_items], and a cart that is a dict.  Every state the operator can
    reach has both ([reachable_wf]). *)
Definition wf (app : POSApp) : Prop :=
  fk_orders (working (app_session app)) ∧ NoDup (cart app).*1.

(** The sum of a list of numbers as the real numbers have it, and as
    the floats have it when the numbers are added one by one to 0.0. *)
Definition Qc_sum (l : list Qc) : Qc := foldl Qcplus 0 l.
Definition fsum (l : list Qc) : Qc := foldl fadd 0 l.

(** The values that [total] takes while [total += line] goes through
    [lines] *)
Fixpoint running_totals (total : Qc) (lines : list Qc) : list Qc :=
  match lines with
  | [] => []
  | line :: lines => fadd total line :: running_totals (fadd total line) lines
  end.

(** No line total and no value of [total] on the way is an infinity. *)
Definition sums_in_range (lines : list Qc) : Prop :=
  Forall in_range (lines ++ running_totals 0 lines).

#[global] Instance sums_in_range_dec lines : Decision (sums_in_range lines).
Proof. unfold sums_in_range. apply _. Defined.

(** No stock is an infinity. *)
Definition stocks_in_range (m : gmap Z Product) : Prop :=
  map_Forall (λ _ p, in_range (Product.stock p)) m.

#[global] Instance stocks_in_range_dec m : Decision (stocks_in_range m).
Proof. unfold stocks_in_range. apply _. Defined.

(** [p] after [p.stock -= qty] *)
Definition sold (qty : Qc) (p : Product) : Product :=
  {| Product.name := Product.name p;
     Product.price_per_unit := Product.price_per_unit p;
     Product.stock := fsub (Product.stock p) qty |}.

(** What the receipt reads of a product *)
Definition printed (p : Product) : string * Qc :=
  (Product.name p, Product.price_per_unit p).

(** The cart entry an order item is made from *)
Definition entry (it : OrderItem) : Z * Qc :=
  (OrderItem.product_id it, OrderItem.quantity it).

(** ** Concrete runs *)

Definition noon : datetime :=
  {| year := 2024; month := 3; day := 5; hour := 12; minute := 0;
     second := 0 |}.

Definition half : Qc := Q2Qc (1 # 2).

(** Two presses of the half-kilogram button of "Milk (per kg)" *)
Definition milk_cart : POSApp := run [AddToCart 1 half; AddToCart 1 half] init.

(** One kilogram of milk, then more yogurt than there is in stock *)
Definition greedy_cart : POSApp :=
  run [AddToCart 1 1; AddToCart 2 (Q2Qc 101)] init.

(** Rice pudding is put in the cart and then deleted from the catalog. *)
Definition stale_cart : POSApp :=
  run [AddToCart 6 1; DeleteProduct (Some 6%Z) true] init.

(** The shop after the sale of [milk_cart], and the same shop after milk
    has been repriced. *)
Definition after_sale : POSApp := run [Checkout noon] milk_cart.
Definition repriced : POSApp :=
  run [AddProduct (Some "Milk (per kg)") (Some (Q2Qc 160)) (Some (Q2Qc 99))]
      after_sale.
Definition first_order : Order :=
  {| Order.id := 1; Order.timestamp := noon;
     Order.total := fadd 0 (fmul (Q2Qc 150) (half + half)) |}.

(** Milk is repriced from 150 to 160 while a kilogram of it waits in the
    cart; the order that the checkout of this cart commits. *)
Definition cart_then_reprice : POSApp :=
  run [AddProduct (Some "Milk (per kg)") (Some (Q2Qc 160)) (Some (Q2Qc 100))]
      milk_cart.
Definition order_at_new_price : Order :=
  {| Order.id := 1; Order.timestamp := noon;
     Order.total := fadd 0 (fmul (Q2Qc 160) (half + half)) |}.

(** [float("0.1")] and the like: the float nearest to a decimal *)
Definition float_of (q : Q) : Qc := round64 (Q2Qc q).

(** Milk, yogurt and sweets are repriced to 0.1, 0.2 and 0.3, and one unit
    of each is put in the cart. *)
Definition dimes_cart : POSApp :=
  run [AddProduct (Some "Milk (per kg)") (Some (float_of (1 # 10)))
                  (Some (Q2Qc 100));
       AddProduct (Some "Yogurt (per kg)") (Some (float_of (2 # 10)))
                  (Some (Q2Qc 100));
       AddProduct (Some "Sweets (per dish)") (Some (float_of (3 # 10)))
                  (Some (Q2Qc 100));
       AddToCart 1 1; AddToCart 2 1; AddToCart 3 1]
      init.

(** Milk is repriced to 50.17, and the half-kilogram button is pressed
    three times. *)
Definition odd_price_cart : POSApp :=
  run [AddProduct (Some "Milk (per kg)") (Some (float_of (5017 # 100)))
                  (Some (Q2Qc 100));
       AddToCart 1 half; AddToCart 1 half; AddToCart 1 half]
      init.

(** Milk's stock is set to 1e16, and a kilogram of it is put in the
    cart. *)
Definition big_stock_cart : POSApp :=
  run [AddProduct (Some "Milk (per kg)") (Some (Q2Qc 150))
                  (Some (Q2Qc (10 ^ 16)));
       AddToCart 1 1]
      init.

(** The checkout of [greedy_cart] has failed; the cart is cleared and one
    dish of sweets is put in it. *)
Definition after_failure_cart : POSApp :=
  run [Checkout noon; ClearCart true; AddToCart 3 1] greedy_cart.

(** ... and after milk has only been restocked, at its old price. *)
Definition restocked : POSApp :=
  run [AddProduct (Some "Milk (per kg)") (Some (Q2Qc 150)) (Some (Q2Qc 500))]
      after_sale.

(** The order row that [_checkout] commits before it looks at the cart's
    entries. *)
Definition empty_order : Order :=
  {| Order.id := 1; Order.timestamp := noon; Order.total := 0 |}.

(** Milk is given the stock -5 in the Add/Update dialogs. *)
Definition negative_upsert : event :=
  AddProduct (Some "Milk (per kg)") (Some (Q2Qc 150)) (Some (Q2Qc (-5))).

(** ** The rest of the program *)

(** The seeding block of the module: the defaults are added, with stock
    100, only when [products] has no row. *)
Definition seed (t : Tables) : Tables :=
  if decide (size (products t) = 0%nat)
  then foldl (λ t np, add_product_row
                        {| Product.name := np.1;
                           Product.price_per_unit := np.2;
                           Product.stock := Q2Qc 100 |} t)
             t def_products
  else t.

(** The [total] that [update_cart_display] writes on the label: the
    float sum, entry after entry, of the current price times the pending
    quantity; [None] when the loop raises. *)
Fixpoint display_total (t : Tables) (entries : Cart) (total : Qc)
  : option Qc :=
  match entries with
  | [] => Some total
  | (pid, qty) :: rest =>
    match get_product t pid with
    | None => None
    | Some p =>
      let line := fmul (Product.price_per_unit p) qty in
      display_total t rest (fadd total line)
    end
  end.

(** [session.query(Product).order_by(Product.name)]: the rows in the
    order of their names (byte by byte, as SQLite compares text). *)
Definition by_name (a b : Z * Product) : Prop :=
  String.leb (Product.name a.2) (Product.name b.2) = true.

#[global] Instance by_name_dec : RelDecision by_name.
Proof. intros a b. unfold by_name. apply _. Defined.

Definition products_by_name (t : Tables) : list (Z * Product) :=
  merge_sort by_name (map_to_list (products t)).

(** The rows that [_build_products_tab] puts in the tree:
    id, name, price and stock. *)
Definition product_rows (t : Tables) : list (Z * string * string * string) :=
  (λ kp, (kp.1, Product.name kp.2,
          format_2f (Product.price_per_unit kp.2),
          format_2f (Product.stock kp.2)))
  <$> products_by_name t.

(** ['per kg' in name] *)
Definition per_kg (nm : string) : bool :=
  bool_decide (is_Some (String.index 0 "per kg" nm)).

(** The quantities and labels of the buttons of one product *)
Definition variants (nm : string) : list (Qc * string) :=
  if per_kg nm then [(Q2Qc (1 # 2), "½kg"); (1, "1kg")] else [(1, "")].

(** The buttons of [_build_sale_tab], row after row: the product and the
    quantity that a press hands to [add_to_cart], and the text shown. *)
Definition sale_buttons (t : Tables) : list (Z * Qc * string) :=
  kp ← products_by_name t;
  (λ ql : Qc * string,
     (kp.1, ql.1,
      Product.name kp.2 +:+ String "010"%char ""
      +:+ (if decide (ql.2 = "") then "1" else ql.2)))
  <$> variants (Product.name kp.2).

(** A press of one of the buttons that the sale tab got when the window
    was built (the tab is built once, in [__init__]) *)
Definition button_press (e : event) : Prop :=
  match e with
  | AddToCart pid qty =>
    ∃ text, (pid, qty, text) ∈ sale_buttons (working (app_session init))
  | _ => True
  end.

(** What the sale buttons can do to a state: every cart entry is for a
    product the catalog had when the window was built and has a positive
    quantity, and every order item has a positive quantity. *)
Definition sold_by_buttons (app : POSApp) : Prop :=
  Forall (λ e : Z * Qc,
            0 < e.2
            ∧ is_Some (products (working (app_session init)) !! e.1))
         (cart app)
  ∧ Forall (λ it, 0 < OrderItem.quantity it)
           (order_items (working (app_session app))).

(** Every order's total is the float sum of the line totals of its
    items, taken in their order, or is the 0 it was inserted with. *)
Definition accounted (t : Tables) : Prop :=
  Forall (λ o, Order.total o
               = fsum (OrderItem.line_total <$> items_of t (Order.id o))
               ∨ Order.total o = 0)
         (orders t).

(** ... as far as the sum stayed within the floats *)
Definition accounted_in_range (t : Tables) : Prop :=
  Forall (λ o,
            let lines := OrderItem.line_total <$> items_of t (Order.id o) in
            sums_in_range lines
            → Order.total o = fsum lines ∨ Order.total o = 0)
         (orders t).

(** [cart_keys] lists the cart's keys up to the entry at which the last
    [update_cart_display] stopped. *)
Definition keys_ok (app : POSApp) : Prop :=
  cart_keys app `prefix_of` (cart app).*1.

(** No two rows of [products] have the same name. *)
Definition names_unique (t : Tables) : Prop :=
  ∀ i j p q,
    products t !! i = Some p → products t !! j = Some q →
    Product.name p = Product.name q → i = j.

(** Every entry of the cart has an existing product with enough stock. *)
Definition cart_in_stock (t : Tables) (c : Cart) : Prop :=
  ∀ pid qty, (pid, qty) ∈ c →
    ∃ p, get_product t pid = Some p ∧ qty ≤ Product.stock p.

(** * Properties *)

(** ** The cart *)

Lemma cart_set_keys (c : Cart) k v :
  (cart_set c k v).*1 = if decide (k ∈ c.*1) then c.*1 else c.*1 ++ [k].
Proof.
  induction c as [|[k' v'] c IH].
  - case_decide; [set_solver | done].
  - cbn [cart_set]. destruct (decide (k' = k)) as [->|Hne].
    + clear IH. rewrite decide_True by set_solver. done.
    + rewrite fmap_cons, IH. cbn [fst]. clear IH.
      destruct (decide (k ∈ c.*1)).
      * rewrite decide_True by set_solver. done.
      * rewrite decide_False by set_solver. done.
Qed.

Lemma cart_set_NoDup (c : Cart) k v : NoDup c.*1 → NoDup (cart_set c k v).*1.
Proof.
  intros Hnd. rewrite cart_set_keys. case_decide; [done |].
  apply NoDup_app. split_and!; [done | set_solver | apply NoDup_singleton].
Qed.





Lemma update_cart_display_cart app :
  cart (update_cart_display app).1 = cart app.
Proof. unfold update_cart_display. by destruct (display_loop _ _ _). Qed.

Lemma update_cart_display_session app :
  app_session (update_cart_display app).1 = app_session app.
Proof. unfold update_cart_display. by destruct (display_loop _ _ _). Qed.

Lemma add_to_cart_cart pid qty app :
  cart (add_to_cart pid qty app).1
  = cart_set (cart app) pid (cart_get (cart app) pid 0 + qty).
Proof. unfold add_to_cart. by rewrite update_cart_display_cart. Qed.

Lemma add_to_cart_session pid qty app :
  app_session (add_to_cart pid qty app).1 = app_session app.
Proof. unfold add_to_cart. by rewrite update_cart_display_session. Qed.



(** ** Stock is checked before it is decremented *)

Lemma not_lt_minus_nonneg (s q : Qc) : ¬ s < q → 0 ≤ s - q.
Proof. intros Hlt. apply (proj1 (Qcle_minus_iff q s)). by apply Qcle_ngt. Qed.

Lemma round_half_even_nonneg (x : Q) :
  (0 <= x)%Q → (0 ≤ round_half_even x)%Z.
Proof.
  intros Hx. unfold round_half_even.
  assert (Hq : (0 ≤ Qnum x / Z.pos (Qden x))%Z).
  { apply Z.div_pos; [|done]. unfold Qle in Hx. cbn in Hx. lia. }
  repeat case_match; lia.
Qed.

Lemma pow2_pos (e : Z) : (0 < pow2 e)%Q.
Proof.
  unfold pow2. case_match.
  - unfold Qlt. cbn. pose proof (Z.pow_pos_nonneg 2 e). lia.
  - done.
Qed.

Lemma round64_pos_nonneg (a : Q) : (0 <= a)%Q → (0 <= round64_pos a)%Q.
Proof.
  intros Ha. unfold round64_pos. apply Qmult_le_0_compat.
  - replace 0%Q with (inject_Z 0) by done. rewrite <-Zle_Qle.
    apply round_half_even_nonneg, Qmult_le_0_compat; [done |].
    apply Qlt_le_weak, pow2_pos.
  - apply Qlt_le_weak, pow2_pos.
Qed.

(** Rounding keeps the sign: a float result is not negative when the
    exact result is not. *)
Lemma round64_nonneg (x : Qc) : 0 ≤ x → 0 ≤ round64 x.
Proof.
  intros Hx. unfold round64. case_bool_decide as Hpos.
  - unfold Qcle. cbn [this Q2Qc]. rewrite !Qred_correct.
    apply round64_pos_nonneg. by apply Qclt_le_weak in Hpos.
  - case_bool_decide as Hneg; [by apply Qcle_ngt in Hneg | done].
Qed.

(** [p.stock -= qty] after the test [p.stock < qty] has failed *)
Lemma fsub_nonneg (s q : Qc) : ¬ s < q → 0 ≤ fsub s q.
Proof. intros Hlt. by apply round64_nonneg, not_lt_minus_nonneg. Qed.

Lemma stock_ok_set_stock pid p v t :
  0 ≤ v → stock_ok t → stock_ok (set_stock pid p v t).
Proof. intros Hv Ht. by apply map_Forall_insert_2. Qed.

Lemma checkout_loop_stock_ok oid entries tot t :
  stock_ok t → stock_ok (checkout_loop oid entries tot t).1.
Proof.
  revert tot t. induction entries as [|[pid qty] rest IH]; intros tot t Ht.
  - done.
  - cbn [checkout_loop]. destruct (get_product t pid) as [p|]; [|done].
    case_bool_decide as Hlt; [done |].
    apply IH. unfold add_item, stock_ok. cbn [products].
    apply stock_ok_set_stock; [by apply fsub_nonneg | done].
Qed.

Lemma checkout_loop_products_only oid entries tot t :
  orders (checkout_loop oid entries tot t).1 = orders t.
Proof.
  revert tot t. induction entries as [|[pid qty] rest IH]; intros tot t.
  - done.
  - cbn [checkout_loop]. destruct (get_product t pid) as [p|]; [|done].
    case_bool_decide; [done |]. by rewrite IH.
Qed.

(** C6.  Checkout on an empty cart reports [EmptyCartError] and returns
    the application state it was given: the session (pending and
    committed tables alike) and the cart are untouched. *)
Theorem C6_empty_checkout (now : datetime) (app : POSApp) :
  cart app = [] → _checkout now app = (app, EmptyCartError).
Proof. intros Hc. unfold _checkout. by rewrite Hc. Qed.

Lemma C6_empty_checkout_witness : _checkout noon init = (init, EmptyCartError).
Proof. apply (C6_empty_checkout noon init). reflexivity. Defined.

Lemma checkout_stock_ok (now : datetime) (app : POSApp) :
  session_stock_ok (app_session app) →
  session_stock_ok (app_session (_checkout now app).1).
Proof.
  intros [Hw Hc]. unfold _checkout.
  destruct (cart app) as [|e c] eqn:Hcart; [done |].
  cbn [add_order commit working committed].
  set (t0 := {| products := _ |}).
  assert (Ht0 : stock_ok t0) by done.
  pose proof (checkout_loop_stock_ok
                (next_rowid (Order.id <$> orders (working (app_session app))))
                (e :: c) 0 t0 Ht0) as Hloop.
  destruct (checkout_loop _ (e :: c) 0 t0) as [t [early|tot]];
    cbn [fst] in Hloop.
  - by split.
  - destruct (save_receipt _ _); by split.
Qed.

(** C10.  One checkout, however it ends, leaves no product with a negative
    stock, neither in the session nor in the committed tables, when none
    had one as it began: the loop tests [p.stock < qty] before it runs
    [p.stock -= qty]. *)
Theorem C10_checkout_keeps_stock_nonneg (now : datetime) (app : POSApp) :
  session_stock_ok (app_session app) →
  session_stock_ok (app_session (_checkout now app).1).
Proof. apply checkout_stock_ok. Qed.

Lemma C10_checkout_keeps_stock_nonneg_witness :
  session_stock_ok (app_session (_checkout noon greedy_cart).1).
Proof.
  apply (C10_checkout_keeps_stock_nonneg noon greedy_cart).
  apply (bool_decide_unpack _). vm_compute. exact I.
Defined.

(** ** Catalog maintenance *)

Lemma query_by_name_Some t nm pid prod :
  query_by_name t nm = Some (pid, prod) →
  products t !! pid = Some prod ∧ Product.name prod = nm.
Proof.
  unfold query_by_name. intros Hhd. apply head_Some_elem_of in Hhd.
  apply list_elem_of_filter in Hhd as [Hnm Hin].
  by apply elem_of_map_to_list in Hin.
Qed.

Lemma add_product_stock_ok nm price stock app :
  nonneg_upsert (AddProduct nm price stock) →
  session_stock_ok (app_session app) →
  session_stock_ok (app_session (handle (AddProduct nm price stock) app).1).
Proof.
  intros Hev [Hw Hc]. cbn [handle]. unfold _add_product.
  destruct nm as [nm|]; [|done]. case_decide; [done |].
  destruct price as [price|], stock as [stock|]; try done.
  cbn [fmap option_fmap option_map].
  cbn [fst with_session app_session commit working committed].
  cbn [nonneg_upsert] in Hev.
  assert (stock_ok
            match query_by_name (working (app_session app)) nm with
            | Some (pid, prod) =>
              set_products
                (<[pid := {| Product.name := Product.name prod;
                             Product.price_per_unit := price;
                             Product.stock := stock |}]>
                   (products (working (app_session app))))
                (working (app_session app))
            | None =>
              add_product_row
                {| Product.name := nm; Product.price_per_unit := price;
                   Product.stock := stock |}
                (working (app_session app))
            end); [|by split].
  destruct (query_by_name _ nm) as [[pid prod]|];
    by apply map_Forall_insert_2.
Qed.

Lemma delete_product_stock_ok selected confirm app :
  session_stock_ok (app_session app) →
  session_stock_ok (app_session (_delete_product selected confirm app).1).
Proof.
  intros [Hw Hc]. unfold _delete_product.
  destruct selected as [pid|]; [|done].
  destruct (get_product _ pid); [|done]. destruct confirm; [|done].
  cbn [fst with_session app_session commit working committed].
  assert (stock_ok (set_products
                      (delete pid (products (working (app_session app))))
                      (working (app_session app))));
    [|by split].
  by apply map_Forall_delete.
Qed.

Lemma handle_stock_ok e app :
  nonneg_upsert e →
  session_stock_ok (app_session app) →
  session_stock_ok (app_session (handle e app).1).
Proof.
  intros He Hok.
  destruct e as [pid qty|sel|confirm|nm price st|selected confirm|now];
    cbn [handle].
  - by rewrite add_to_cart_session.
  - unfold _remove_selected. destruct sel as [idx|]; [|done].
    destruct (cart_keys app !! idx) as [pid|]; [|done].
    destruct (cart_del _ pid); [|done].
    by rewrite update_cart_display_session.
  - unfold _clear_cart. destruct confirm; [|done].
    by rewrite update_cart_display_session.
  - by apply add_product_stock_ok.
  - by apply delete_product_stock_ok.
  - by apply checkout_stock_ok.
Qed.

(** C3, as the program has it.  Whatever the operator does (cart actions,
    upserts, deletions, checkouts, failed or not), no product has a
    negative stock afterwards, in the session or in the committed tables,
    as long as none had one at the start and no upsert is given a negative
    stock to store. *)
Theorem C3_stock_nonneg_under_nonneg_upserts (es : list event) (app : POSApp) :
  session_stock_ok (app_session app) →
  Forall nonneg_upsert es →
  session_stock_ok (app_session (run es app)).
Proof.
  revert app. induction es as [|e es IH]; intros app Hok Hes; [done |].
  apply Forall_cons in Hes as [He Hes].
  apply IH; [by apply handle_stock_ok | done].
Qed.

Lemma C3_stock_nonneg_under_nonneg_upserts_witness :
  session_stock_ok
    (app_session
       (run [AddToCart 1 half; AddToCart 1 half; Checkout noon;
             AddProduct (Some "Lassi") (Some (Q2Qc 80)) (Some (Q2Qc 20));
             DeleteProduct (Some 6%Z) true]
            init)).
Proof.
  apply C3_stock_nonneg_under_nonneg_upserts.
  - apply (bool_decide_unpack _). vm_compute. exact I.
  - repeat constructor. vm_compute. discriminate.
Defined.

(** C3 as stated fails: an upsert stores the negative stock it is given,
    and commits it. *)
Lemma C3_counterexample :
  (handle negative_upsert init).2 = Returned
  ∧ ∃ p, products (committed (app_session (run [negative_upsert] init)))
           !! 1%Z = Some p
         ∧ Product.stock p < 0.
Proof.
  split; [reflexivity |]. eexists. split; [vm_compute; reflexivity |].
  vm_compute. reflexivity.
Qed.

(** C4, as the program has it.  With a name entered, an upsert reports
    [ValidationError] and changes nothing when [float(...)] rejects the
    price or the stock.  When both are finite numbers, of whatever sign,
    it reports no error and the committed catalog has a product of that
    name with exactly that price and that stock.  When [float(...)]
    accepts both and one is NaN, no error is reported by the program
    either: the commit raises [IntegrityError]; no product is created or
    changed in the committed tables, and the session is rolled back to
    them. *)
Theorem C4_upsert_rejects_non_numeric_only
    (nm : string) (price stock : option pyfloat) (app : POSApp) :
  nm ≠ "" →
  match price, stock with
  | Some (Fin pr), Some (Fin st) =>
    (_add_product (Some nm) price stock app).2 = Returned
    ∧ ∃ pid,
        products (committed
                    (app_session (_add_product (Some nm) price stock app).1))
          !! pid
        = Some {| Product.name := nm; Product.price_per_unit := pr;
                  Product.stock := st |}
  | Some _, Some _ =>
    _add_product (Some nm) price stock app
    = (with_session (rollback (app_session app)) app, Raised IntegrityError)
  | _, _ => _add_product (Some nm) price stock app = (app, ValidationError)
  end.
Proof.
  intros Hnm. unfold _add_product. rewrite decide_False by done.
  destruct price as [[|pr]|], stock as [[|st]|]; try done.
  split; [done |].
  cbn [fst with_session app_session commit working committed].
  destruct (query_by_name _ nm) as [[pid prod]|] eqn:Hq.
  - apply query_by_name_Some in Hq as [_ <-].
    exists pid. apply lookup_insert_eq.
  - eexists. apply lookup_insert_eq.
Qed.

Lemma C4_upsert_rejects_non_numeric_only_witness :
  _add_product (Some "Milk (per kg)") None (Some (Q2Qc (-5))) init
  = (init, ValidationError).
Proof.
  apply (C4_upsert_rejects_non_numeric_only
           "Milk (per kg)" None (Some (Q2Qc (-5))) init).
  discriminate.
Defined.

(** C4 as stated fails: a negative stock is not rejected; the product is
    updated and committed with it. *)
Lemma C4_counterexample :
  (handle negative_upsert init).2 ≠ ValidationError
  ∧ (Product.stock <$> products (committed (app_session init)) !! 1%Z)
    ≠ (Product.stock
         <$> products (committed (app_session (handle negative_upsert init).1))
             !! 1%Z).
Proof.
  split; [discriminate |]. intros Heq. vm_compute in Heq. discriminate Heq.
Qed.

(** ** A checkout that succeeds *)

Lemma next_rowid_fresh (ids : list Z) : next_rowid ids ∉ ids.
Proof.
  assert (Hmax : ∀ x, x ∈ ids → (x ≤ foldr Z.max 0 ids)%Z).
  { induction ids as [|y ids IH]; intros x Hx; [by apply elem_of_nil in Hx |].
    cbn [foldr]. apply elem_of_cons in Hx as [->|Hx]; [lia |].
    specialize (IH x Hx). lia. }
  intros Hin. apply Hmax in Hin. unfold next_rowid in Hin. lia.
Qed.

(** The loop is left early by the missing attribute of [None] or by the
    stock test, and by nothing else. *)
Lemma checkout_loop_early oid entries tot t t' early :
  checkout_loop oid entries tot t = (t', inl early) →
  early = Raised AttributeError ∨ ∃ nm, early = InsufficientStockError nm.
Proof.
  revert tot t. induction entries as [|[pid qty] rest IH]; intros tot t.
  - done.
  - cbn [checkout_loop]. destruct (get_product t pid) as [p|].
    + case_bool_decide; [|by apply IH]. intros [= <- <-]. right. by eexists.
    + intros [= <- <-]. by left.
Qed.

(** What [_checkout] has done when it hands out a receipt. *)
Lemma checkout_success now app app' order text :
  _checkout now app = (app', Receipt order text) →
  ∃ tl tot,
    let t := working (app_session app) in
    let oid := next_rowid (Order.id <$> orders t) in
    checkout_loop oid (cart app) 0 (add_order now t).2 = (tl, inr tot)
    ∧ order
      = {| Order.id := oid; Order.timestamp := now; Order.total := tot |}
    ∧ working (app_session app') = set_total oid tot tl
    ∧ committed (app_session app') = set_total oid tot tl
    ∧ cart app' = [].
Proof.
  unfold _checkout. destruct (cart app) as [|e c] eqn:Hcart; [done |].
  cbn [add_order commit working committed Order.id Order.timestamp snd].
  destruct (checkout_loop _ (e :: c) 0 _) as [tl [early|tot]] eqn:Hloop.
  - intros [= <- Hearly].
    apply checkout_loop_early in Hloop as [->|[nm ->]]; discriminate Hearly.
  - destruct (save_receipt _ _) as [text'|]; [|done].
    intros [= <- <- <-]. by exists tl, tot.
Qed.

(** Each entry that passes the loop leaves one row in [order_items]: it
    carries the key of the order, the entry's product and quantity, and
    the float product of the product's price and the quantity; [total]
    grows by these amounts, added as floats in the order of the cart. *)
Lemma checkout_loop_items oid entries tot t t' tot' :
  checkout_loop oid entries tot t = (t', inr tot') →
  ∃ created,
    order_items t' = order_items t ++ created
    ∧ entry <$> created = entries
    ∧ Forall (λ it, OrderItem.order_id it = oid
                    ∧ ∃ p, products t !! OrderItem.product_id it = Some p
                           ∧ OrderItem.line_total it
                             = fmul (Product.price_per_unit p)
                                    (OrderItem.quantity it))
             created
    ∧ tot' = foldl fadd tot (OrderItem.line_total <$> created).
Proof.
  revert tot t. induction entries as [|[pid qty] rest IH]; intros tot t.
  - intros [= <- <-]. exists []. by rewrite app_nil_r.
  - cbn [checkout_loop]. destruct (get_product t pid) as [p|] eqn:Hp; [|done].
    case_bool_decide; [done |]. intros Hloop.
    apply IH in Hloop as (created & Hitems & Hcart & Hlines & Htot).
    eexists (_ :: created). split_and!.
    + rewrite Hitems. cbn [add_item order_items]. by rewrite <-app_assoc.
    + by rewrite fmap_cons, Hcart.
    + apply Forall_cons. split; [by eauto |].
      eapply Forall_impl; [exact Hlines |].
      intros it (Hoid & p' & Hp' & Hline). split; [done |].
      unfold add_item, set_stock, set_products in Hp'. cbn [products] in Hp'.
      destruct (decide (pid = OrderItem.product_id it)) as [Heq|Hne].
      * rewrite <-Heq in Hp' |- *. rewrite lookup_insert_eq in Hp'.
        injection Hp' as <-. by exists p.
      * rewrite lookup_insert_ne in Hp' by done. by exists p'.
    + by rewrite Htot.
Qed.

(** On the products, the loop only writes [stock], once per entry. *)
Lemma checkout_loop_products oid entries tot t t' tot' :
  NoDup entries.*1 →
  checkout_loop oid entries tot t = (t', inr tot') →
  (∀ pid qty, (pid, qty) ∈ entries →
     ∃ p, products t !! pid = Some p
          ∧ products t' !! pid = Some (sold qty p))
  ∧ (∀ pid, pid ∉ entries.*1 → products t' !! pid = products t !! pid).
Proof.
  revert tot t. induction entries as [|[k q] rest IH]; intros tot t Hnd.
  - intros [= <- <-]. split; [|done]. intros pid qty Hin.
    by apply elem_of_nil in Hin.
  - cbn [checkout_loop]. destruct (get_product t k) as [p|] eqn:Hp; [|done].
    case_bool_decide; [done |]. intros Hloop.
    rewrite fmap_cons in Hnd. apply NoDup_cons in Hnd as [Hk Hnd].
    apply IH in Hloop as [Hsold Hframe]; [|done].
    unfold add_item, set_stock, set_products in Hsold, Hframe.
    cbn [products] in Hsold, Hframe.
    split.
    + intros pid qty Hin. apply elem_of_cons in Hin as [[= -> ->]|Hin].
      * exists p. split; [done |].
        rewrite Hframe by done. apply lookup_insert_eq.
      * assert (pid ≠ k).
        { intros ->. apply Hk. apply list_elem_of_fmap. by exists (k, qty). }
        destruct (Hsold pid qty Hin) as (p' & Hp' & Hafter).
        rewrite lookup_insert_ne in Hp' by done. by exists p'.
    + intros pid Hpid. rewrite fmap_cons in Hpid.
      apply not_elem_of_cons in Hpid as [Hne Hpid].
      rewrite Hframe by done. by apply lookup_insert_ne.
Qed.

Lemma filter_none {A} (P : A → Prop) `{!∀ x, Decision (P x)} (l : list A) :
  Forall (λ x, ¬ P x) l → filter P l = [].
Proof.
  induction 1 as [|x l Hx Hl IH]; [done |]. by rewrite filter_cons_False.
Qed.

Lemma filter_all {A} (P : A → Prop) `{!∀ x, Decision (P x)} (l : list A) :
  Forall P l → filter P l = l.
Proof.
  induction 1 as [|x l Hx Hl IH]; [done |].
  by rewrite filter_cons_True, IH.
Qed.

(** Writing the total of a new order leaves the older rows alone. *)
Lemma set_total_new_order now v t :
  let o := (add_order now t).1 in
  orders (set_total (Order.id o) v (add_order now t).2)
  = orders t
    ++ [{| Order.id := Order.id o; Order.timestamp := now;
           Order.total := v |}].
Proof.
  cbn [add_order set_total orders fst snd Order.id Order.timestamp].
  rewrite fmap_app. f_equal.
  - rewrite <-(list_fmap_id (orders t)) at 2.
    apply list_fmap_ext.
    intros i o Hio. rewrite decide_False; [done |].
    intros Heq. apply (next_rowid_fresh (Order.id <$> orders t)).
    rewrite <-Heq. apply list_elem_of_fmap. exists o. split; [done |].
    by eapply list_elem_of_lookup_2.
  - cbn [fmap list_fmap]. by rewrite decide_True.
Qed.

(** C2, as the program has it.  When a checkout hands out a receipt, the
    committed tables end with the order of that receipt; its items (the
    rows of [order_items] that carry its key) are the cart's entries,
    product and quantity, in the cart's order; each item's [line_total]
    is the float product of the [price_per_unit] the product had in the
    session when the checkout was started and the quantity; and the
    order's [total] is the float sum of these [line_total]s, added one by
    one to 0.0.  (The cart stores no price, so no earlier price can
    enter.)  This is stated of a checkout none of whose products and sums
    is an infinity ([sums_in_range]). *)
Theorem C2_order_total (now : datetime) (app app' : POSApp)
    (order : Order) (text : string) :
  fk_orders (working (app_session app)) →
  _checkout now app = (app', Receipt order text) →
  let before := working (app_session app) in
  let after := committed (app_session app') in
  let items := items_of after (Order.id order) in
  sums_in_range (OrderItem.line_total <$> items) →
  orders after = orders before ++ [order]
  ∧ entry <$> items = cart app
  ∧ Forall (λ it, ∃ p, products before !! OrderItem.product_id it = Some p
                       ∧ OrderItem.line_total it
                         = fmul (Product.price_per_unit p)
                                (OrderItem.quantity it))
           items
  ∧ Order.total order = fsum (OrderItem.line_total <$> items).
Proof.
  intros Hfk Hco. cbn zeta. intros _.
  apply checkout_success in Hco as (tl & tot & Hloop & -> & _ & -> & _).
  cbn zeta in Hloop.
  set (before := working (app_session app)) in *.
  set (oid := next_rowid (Order.id <$> orders before)) in *.
  cbn [Order.id Order.total].
  pose proof (checkout_loop_products_only oid (cart app) 0
                (add_order now before).2) as Horders.
  rewrite Hloop in Horders. cbn [fst] in Horders.
  apply checkout_loop_items in Hloop
    as (created & Hitems & Hcart & Hlines & Htot).
  assert (Hmine : items_of (set_total oid tot tl) oid = created).
  { unfold items_of. cbn [set_total order_items]. rewrite Hitems.
    cbn [add_order snd order_items]. rewrite filter_app.
    rewrite filter_none, filter_all; [done | |].
    - eapply Forall_impl; [exact Hlines |]. by intros it [Hoid _].
    - eapply Forall_impl; [exact Hfk |]. intros it Hin Heq.
      apply (next_rowid_fresh (Order.id <$> orders before)).
      fold oid. by rewrite <-Heq. }
  rewrite Hmine. split_and!.
  - pose proof (set_total_new_order now tot before) as Hnew.
    cbn zeta in Hnew. cbn [add_order fst Order.id] in Hnew. fold oid in Hnew.
    rewrite <-Hnew. cbn [set_total orders]. by rewrite Horders.
  - done.
  - eapply Forall_impl; [exact Hlines |].
    intros it (_ & p & Hp & Hline). by exists p.
  - done.
Qed.

Lemma C2_order_total_witness :
  let before := working (app_session cart_then_reprice) in
  let after :=
    committed (app_session (run [Checkout noon] cart_then_reprice)) in
  let items := items_of after (Order.id order_at_new_price) in
  orders after = orders before ++ [order_at_new_price]
  ∧ entry <$> items = cart cart_then_reprice
  ∧ Forall (λ it, ∃ p, products before !! OrderItem.product_id it = Some p
                       ∧ OrderItem.line_total it
                         = fmul (Product.price_per_unit p)
                                (OrderItem.quantity it))
           items
  ∧ Order.total order_at_new_price = fsum (OrderItem.line_total <$> items).
Proof.
  apply (C2_order_total noon cart_then_reprice
           (run [Checkout noon] cart_then_reprice) order_at_new_price
           (match (_checkout noon cart_then_reprice).2 with
            | Receipt _ text => text
            | _ => ""
            end)).
  - vm_compute. constructor.
  - vm_compute. reflexivity.
  - apply (bool_decide_unpack _). vm_compute. exact I.
Defined.

(** C2 as stated fails: the total and the line totals are floats.  With
    prices 0.1, 0.2 and 0.3 and one unit of each, the committed total
    (0.6000000000000001) is not the sum of the three line totals; with
    price 50.17 and quantity 1.5, the line total is not the quantity
    times the price. *)
Lemma C2_counterexample :
  (∃ order text,
     (_checkout noon dimes_cart).2 = Receipt order text
     ∧ Order.total order
       ≠ Qc_sum (OrderItem.line_total
                   <$> items_of
                         (committed (app_session (_checkout noon dimes_cart).1))
                         (Order.id order)))
  ∧ (∃ order text it p,
       (_checkout noon odd_price_cart).2 = Receipt order text
       ∧ items_of (committed (app_session (_checkout noon odd_price_cart).1))
                  (Order.id order) = [it]
       ∧ products (working (app_session odd_price_cart))
           !! OrderItem.product_id it = Some p
       ∧ OrderItem.line_total it
         ≠ OrderItem.quantity it * Product.price_per_unit p).
Proof.
  split.
  - eexists _, _. split; [vm_compute; reflexivity |].
    intros Heq. apply (f_equal this) in Heq. vm_compute in Heq.
    discriminate Heq.
  - eexists _, _, _, _. split_and!; [vm_compute; reflexivity .. |].
    intros Heq. apply (f_equal this) in Heq. vm_compute in Heq.
    discriminate Heq.
Qed.

(** C9, as the program has it.  When a checkout hands out a receipt, the
    session has nothing pending any more; compared with the products as
    the session held them when the checkout started, the catalog has the
    same product ids, every product of the cart has its [stock] replaced
    by the float difference of that stock and the cart's quantity ([sold]
    keeps [name] and [price_per_unit]), and every other product is the row
    it was.  This is stated of a checkout that leaves no infinite stock
    ([stocks_in_range]). *)
Theorem C9_checkout_frame (now : datetime) (app app' : POSApp)
    (order : Order) (text : string) :
  NoDup (cart app).*1 →
  _checkout now app = (app', Receipt order text) →
  let before := products (working (app_session app)) in
  let after := products (committed (app_session app')) in
  stocks_in_range after →
  working (app_session app') = committed (app_session app')
  ∧ dom after = dom before
  ∧ (∀ pid qty, (pid, qty) ∈ cart app →
       ∃ p, before !! pid = Some p ∧ after !! pid = Some (sold qty p))
  ∧ (∀ pid, pid ∉ (cart app).*1 → after !! pid = before !! pid).
Proof.
  intros Hnd Hco. cbn zeta. intros _.
  apply checkout_success in Hco as (tl & tot & Hloop & _ & -> & -> & _).
  cbn zeta in Hloop.
  apply checkout_loop_products in Hloop as [Hsold Hframe]; [|done].
  cbn [set_total products add_order snd] in *.
  split_and!; [done | | done | done].
  apply set_eq. intros pid. rewrite !elem_of_dom.
  destruct (decide (pid ∈ (cart app).*1)) as [Hin|Hout].
  - apply list_elem_of_fmap in Hin as ([pid' qty] & Heq & Hin).
    cbn [fst] in Heq. subst pid'.
    destruct (Hsold _ _ Hin) as (p & -> & ->). by split.
  - by rewrite Hframe.
Qed.

Lemma C9_checkout_frame_witness :
  let before := products (working (app_session milk_cart)) in
  let after := products (committed (app_session after_sale)) in
  working (app_session after_sale) = committed (app_session after_sale)
  ∧ dom after = dom before
  ∧ (∀ pid qty, (pid, qty) ∈ cart milk_cart →
       ∃ p, before !! pid = Some p ∧ after !! pid = Some (sold qty p))
  ∧ (∀ pid, pid ∉ (cart milk_cart).*1 → after !! pid = before !! pid).
Proof.
  apply (C9_checkout_frame noon milk_cart after_sale first_order
           (match (_checkout noon milk_cart).2 with
            | Receipt _ text => text
            | _ => ""
            end)).
  - vm_compute. apply NoDup_singleton.
  - vm_compute. reflexivity.
  - apply (bool_decide_unpack _). vm_compute. exact I.
Defined.

(** C9 as stated fails, twice over.  The stock is a float: from 1e16 a
    sale of one unit leaves 1e16, not 1e16 - 1.  And what a receipt
    commits is the session's whole view: after a checkout that failed on
    its second entry, the next successful one, of a cart without milk,
    changes the committed stock of milk. *)
Lemma C9_counterexample :
  (∃ order text p p',
     (_checkout noon big_stock_cart).2 = Receipt order text
     ∧ (cart big_stock_cart).*1 = [1%Z]
     ∧ cart_get (cart big_stock_cart) 1 0 = 1
     ∧ products (working (app_session big_stock_cart)) !! 1%Z = Some p
     ∧ products (committed (app_session (_checkout noon big_stock_cart).1))
         !! 1%Z = Some p'
     ∧ Product.stock p' ≠ Product.stock p - 1)
  ∧ (∃ order text p p',
       (_checkout noon after_failure_cart).2 = Receipt order text
       ∧ (1%Z ∉ (cart after_failure_cart).*1)
       ∧ products (committed (app_session after_failure_cart)) !! 1%Z
         = Some p
       ∧ (products
            (committed (app_session (_checkout noon after_failure_cart).1))
            !! 1%Z) = Some p'
       ∧ Product.stock p' ≠ Product.stock p).
Proof.
  split.
  - eexists _, _, _, _. split_and!.
    + vm_compute. reflexivity.
    + vm_compute. reflexivity.
    + apply Qc_is_canon. vm_compute. reflexivity.
    + vm_compute. reflexivity.
    + vm_compute. reflexivity.
    + intros Heq. apply (f_equal this) in Heq. vm_compute in Heq.
      discriminate Heq.
  - eexists _, _, _, _. split_and!.
    + vm_compute. reflexivity.
    + vm_compute. intros Hin. apply list_elem_of_singleton in Hin.
      discriminate Hin.
    + vm_compute. reflexivity.
    + vm_compute. reflexivity.
    + intros Heq. apply (f_equal this) in Heq. vm_compute in Heq.
      discriminate Heq.
Qed.

(** ** A checkout that fails *)

(** Whenever [_checkout] reports an insufficient stock, the order row it
    inserted before its loop is committed, with the default total. *)
Lemma insufficient_stock_commits_order now app nm :
  (_checkout now app).2 = InsufficientStockError nm →
  let t := working (app_session app) in
  orders (committed (app_session (_checkout now app).1))
  = orders t
    ++ [{| Order.id := next_rowid (Order.id <$> orders t);
           Order.timestamp := now; Order.total := 0 |}].
Proof.
  unfold _checkout. destruct (cart app) as [|e c]; [done |].
  cbn [add_order commit working committed Order.id].
  destruct (checkout_loop _ (e :: c) 0 _) as [tl [early|tot]]; [done |].
  by destruct (save_receipt _ _).
Qed.

(** C1, on the cart of one kilogram of milk and 101 kg of yogurt (100 in
    stock).  The checkout reports the insufficient stock of yogurt, and
    yet: an order row has been committed, the session holds milk's stock
    lowered by the kilogram and an order item for it, and the next commit
    of the session (here an unrelated upsert) makes both durable. *)
Theorem C1_failed_checkout_is_not_atomic :
  let app' := (_checkout noon greedy_cart).1 in
  let later :=
    run [AddProduct (Some "Lassi") (Some (Q2Qc 80)) (Some (Q2Qc 20))] app' in
  (_checkout noon greedy_cart).2 = InsufficientStockError "Yogurt (per kg)"
  ∧ orders (committed (app_session greedy_cart)) = []
  ∧ orders (committed (app_session app')) = [empty_order]
  ∧ order_items (working (app_session greedy_cart)) = []
  ∧ length (order_items (working (app_session app'))) = 1%nat
  ∧ (∃ p p', products (working (app_session greedy_cart)) !! 1%Z = Some p
             ∧ products (working (app_session app')) !! 1%Z = Some p'
             ∧ Product.stock p' = Product.stock p - 1)
  ∧ length (order_items (committed (app_session later))) = 1%nat
  ∧ (∃ p p', products (committed (app_session greedy_cart)) !! 1%Z = Some p
             ∧ products (committed (app_session later)) !! 1%Z = Some p'
             ∧ Product.stock p' = Product.stock p - 1).
Proof.
  cbn zeta. split_and!; try (vm_compute; reflexivity).
  - eexists _, _. split_and!; [vm_compute; reflexivity .. |].
    apply Qc_is_canon. vm_compute. reflexivity.
  - eexists _, _. split_and!; [vm_compute; reflexivity .. |].
    apply Qc_is_canon. vm_compute. reflexivity.
Qed.

(** C5, on a cart whose only product has been deleted from the catalog.
    The checkout ends in an uncaught [AttributeError] (no error of the
    program's own is reported), the cart is as it was, and an order row
    has been committed. *)
Theorem C5_checkout_of_deleted_product :
  let app' := (_checkout noon stale_cart).1 in
  cart stale_cart = [(6%Z, 1)]
  ∧ get_product (working (app_session stale_cart)) 6 = None
  ∧ (_checkout noon stale_cart).2 = Raised AttributeError
  ∧ cart app' = cart stale_cart
  ∧ orders (committed (app_session stale_cart)) = []
  ∧ orders (committed (app_session app')) = [empty_order].
Proof. cbn zeta. split_and!; vm_compute; reflexivity. Qed.

(** ** The receipt *)

Lemma receipt_line_printed t1 t2 it :
  printed <$> products t1 !! OrderItem.product_id it
  = printed <$> products t2 !! OrderItem.product_id it →
  receipt_line t1 it = receipt_line t2 it.
Proof.
  unfold receipt_line, get_product.
  destruct (products t1 !! _) as [p1|], (products t2 !! _) as [p2|];
    try done.
  cbn [fmap option_fmap option_map mbind option_bind printed].
  by intros [= -> ->].
Qed.

Lemma receipt_lines_printed t1 t2 (its : list OrderItem) :
  (∀ it, it ∈ its →
     printed <$> products t1 !! OrderItem.product_id it
     = printed <$> products t2 !! OrderItem.product_id it) →
  mapM (receipt_line t1) its = mapM (receipt_line t2) its.
Proof.
  induction its as [|it its IH]; intros Hprinted; [done |].
  cbn [mapM]. rewrite (receipt_line_printed t1 t2 it).
  - rewrite IH; [done |].
    intros it' Hin. apply Hprinted. by apply list_elem_of_further.
  - apply Hprinted. apply list_elem_of_here.
Qed.

(** C8, as the program has it.  The text of a receipt is determined by the
    order row, its items, and the name and the unit price that the
    catalog has, when the receipt is made, for the products of these items:
    two sets of tables that agree on those give the same text, whatever
    stocks, other products and other orders they hold. *)
Theorem C8_receipt_reads_name_and_price (t1 t2 : Tables) (order : Order) :
  items_of t1 (Order.id order) = items_of t2 (Order.id order) →
  (∀ it, it ∈ items_of t1 (Order.id order) →
     printed <$> products t1 !! OrderItem.product_id it
     = printed <$> products t2 !! OrderItem.product_id it) →
  save_receipt t1 order = save_receipt t2 order.
Proof.
  intros Hitems Hprinted. unfold save_receipt. rewrite <-Hitems.
  by rewrite (receipt_lines_printed t1 t2 _ Hprinted).
Qed.

Lemma C8_receipt_reads_name_and_price_witness :
  save_receipt (working (app_session after_sale)) first_order
  = save_receipt (working (app_session restocked)) first_order.
Proof.
  apply (C8_receipt_reads_name_and_price
           (working (app_session after_sale))
           (working (app_session restocked)) first_order).
  - vm_compute. reflexivity.
  - intros it Hin. vm_compute in Hin.
    apply list_elem_of_singleton in Hin as ->. vm_compute. reflexivity.
Defined.

(** C8 as stated fails: the unit price on a receipt is the product's
    current one.  After milk is repriced from 150 to 160, the order and its
    items being what they were, the receipt of the first order is another
    text. *)
Lemma C8_counterexample :
  first_order ∈ orders (working (app_session after_sale))
  ∧ orders (working (app_session repriced))
    = orders (working (app_session after_sale))
  ∧ order_items (working (app_session repriced))
    = order_items (working (app_session after_sale))
  ∧ save_receipt (working (app_session after_sale)) first_order
    ≠ save_receipt (working (app_session repriced)) first_order.
Proof.
  split_and!.
  - vm_compute. apply list_elem_of_here.
  - vm_compute. reflexivity.
  - vm_compute. reflexivity.
  - vm_compute. intros Heq. discriminate Heq.
Qed.

(** ** Reachable states are well-formed *)

Lemma cart_del_keys (c c' : Cart) k :
  cart_del c k = Some c' → c'.*1 `sublist_of` c.*1.
Proof.
  revert c'. induction c as [|[k' v'] c IH]; intros c'; [done |].
  cbn [cart_del]. destruct (decide (k' = k)) as [->|Hne].
  - intros [= <-]. rewrite fmap_cons. by apply sublist_cons.
  - destruct (cart_del c k) as [c''|]; [|done]. intros [= <-].
    rewrite !fmap_cons. apply sublist_skip. by apply IH.
Qed.

Lemma fk_orders_ext t t' :
  order_items t' = order_items t →
  Order.id <$> orders t' = Order.id <$> orders t →
  fk_orders t → fk_orders t'.
Proof. unfold fk_orders. by intros -> ->. Qed.

Lemma set_total_keys oid v t :
  Order.id <$> orders (set_total oid v t) = Order.id <$> orders t.
Proof.
  cbn [set_total orders]. rewrite <-list_fmap_compose.
  apply list_fmap_ext. intros i o _. cbn [compose]. by case_decide.
Qed.

Lemma fk_orders_loop oid entries tot t :
  oid ∈ Order.id <$> orders t →
  fk_orders t → fk_orders (checkout_loop oid entries tot t).1.
Proof.
  revert tot t.
  induction entries as [|[pid qty] rest IH]; intros tot t Hoid Hfk.
  - done.
  - cbn [checkout_loop]. destruct (get_product t pid) as [p|]; [|done].
    case_bool_decide; [done |]. apply IH; [done |].
    unfold fk_orders, add_item. cbn [order_items orders set_stock set_products].
    apply Forall_app. split; [done |]. by apply Forall_singleton.
Qed.

Lemma fk_orders_checkout now app :
  fk_orders (working (app_session app)) →
  fk_orders (working (app_session (_checkout now app).1)).
Proof.
  intros Hfk. unfold _checkout. destruct (cart app) as [|e c]; [done |].
  cbn [add_order commit working committed Order.id].
  set (t := working (app_session app)) in *.
  set (oid := next_rowid (Order.id <$> orders t)).
  set (t0 := {| products := products t |}).
  assert (Hloop : fk_orders (checkout_loop oid (e :: c) 0 t0).1).
  { apply fk_orders_loop.
    - unfold t0. cbn [orders]. rewrite fmap_app. set_solver.
    - unfold fk_orders, t0. cbn [orders order_items].
      eapply Forall_impl; [exact Hfk |]. intros it Hit.
      rewrite fmap_app. set_solver. }
  destruct (checkout_loop oid (e :: c) 0 t0) as [tl [early|tot]];
    cbn [fst] in Hloop; [done |].
  assert (fk_orders (set_total oid tot tl))
    by (by eapply fk_orders_ext; [| apply set_total_keys |]).
  by destruct (save_receipt _ _).
Qed.

Lemma checkout_cart now app :
  cart (_checkout now app).1 = cart app ∨ cart (_checkout now app).1 = [].
Proof.
  unfold _checkout. destruct (cart app) as [|e c] eqn:Hcart; [by left |].
  destruct (add_order _ _) as [order t].
  destruct (checkout_loop _ _ _ _) as [tl [early|tot]]; [by left |].
  destruct (save_receipt _ _); [by right | by left].
Qed.

Lemma handle_wf e app : wf app → wf (handle e app).1.
Proof.
  intros [Hfk Hnd].
  destruct e as [pid qty|sel|confirm|nm price st|selected confirm|now];
    cbn [handle].
  - split; [by rewrite add_to_cart_session |].
    rewrite add_to_cart_cart. by apply cart_set_NoDup.
  - unfold _remove_selected. destruct sel as [idx|]; [|done].
    destruct (cart_keys app !! idx) as [pid|]; [|done].
    destruct (cart_del _ pid) as [c|] eqn:Hdel; [|done].
    split; [by rewrite update_cart_display_session |].
    rewrite update_cart_display_cart. cbn [cart].
    eapply sublist_NoDup; [exact Hnd |]. by eapply cart_del_keys.
  - unfold _clear_cart. destruct confirm; [|done].
    split; [by rewrite update_cart_display_session |].
    rewrite update_cart_display_cart. apply NoDup_nil_2.
  - unfold _add_product. destruct nm as [nm|]; [|done].
    case_decide; [done |].
    destruct price as [price|], st as [st|]; try done.
    split; [|done]. cbn [fst with_session app_session commit working].
    by destruct (query_by_name _ nm) as [[pid prod]|].
  - unfold _delete_product. destruct selected as [pid|]; [|done].
    destruct (get_product _ pid); [|done]. by destruct confirm.
  - split; [by apply fk_orders_checkout |].
    destruct (checkout_cart now app) as [-> | ->]; [done | apply NoDup_nil_2].
Qed.

Lemma reachable_wf (es : list event) : wf (run es init).
Proof.
  assert (Hrun : ∀ app, wf app → wf (run es app)).
  { induction es as [|e es IH]; intros app Hwf; [done |].
    apply IH. by apply handle_wf. }
  apply Hrun. split; [apply Forall_nil_2 | apply NoDup_nil_2].
Qed.

(** ** The cart and its display *)


Lemma cart_del_None (c : Cart) k : cart_del c k = None ↔ k ∉ c.*1.
Proof.
  induction c as [|[k' v'] c IH]; cbn [cart_del].
  - split; [set_solver | done].
  - rewrite fmap_cons, not_elem_of_cons. cbn [fst].
    destruct (decide (k' = k)) as [->|Hne].
    + split; [done | by intros [? _]].
    + destruct (cart_del c k) as [c'|]; cbn.
      * split; [done |]. intros [_ Hk]. by apply IH in Hk.
      * split; [|done]. intros _. split; [done | by apply IH].
Qed.

Lemma cart_del_filter (c c' : Cart) k :
  NoDup c.*1 → cart_del c k = Some c' →
  c' = filter (λ e : Z * Qc, e.1 ≠ k) c.
Proof.
  revert c'. induction c as [|[k' v'] c IH]; intros c' Hnd; [done |].
  rewrite fmap_cons in Hnd. apply NoDup_cons in Hnd as [Hk' Hnd].
  cbn [cart_del]. destruct (decide (k' = k)) as [->|Hne].
  - intros [= <-]. rewrite filter_cons_False by (cbn; tauto).
    symmetry. apply filter_all. apply Forall_forall. intros [k0 v0] Hin Heq.
    cbn in Heq. subst k0. apply Hk'. apply list_elem_of_fmap.
    by exists (k, v0).
  - destruct (cart_del c k) as [c''|]; [|done]. intros [= <-].
    rewrite filter_cons_True by done. f_equal. by apply IH.
Qed.

(** Deleting the key that was just added to a cart that did not have it
    gives the cart back. *)
Lemma cart_del_set_fresh (c : Cart) k v :
  k ∉ c.*1 → cart_del (cart_set c k v) k = Some c.
Proof.
  induction c as [|[k' v'] c IH]; cbn [cart_set cart_del]; intros Hk.
  - by rewrite decide_True.
  - rewrite fmap_cons, not_elem_of_cons in Hk. destruct Hk as [Hne Hk].
    cbn [fst] in Hne. rewrite decide_False by done. cbn [cart_del].
    rewrite decide_False by done. by rewrite IH.
Qed.

(** The loop of [update_cart_display] appends the keys of the entries it
    passes; it ends early exactly at the first entry whose product is
    gone. *)
Lemma display_loop_spec t (entries : Cart) keys :
  match display_loop t entries keys with
  | (keys', true) =>
    keys' = keys ++ entries.*1
    ∧ ∀ k, k ∈ entries.*1 → is_Some (get_product t k)
  | (keys', false) =>
    ∃ shown k rest,
      keys' = keys ++ shown ∧ entries.*1 = shown ++ k :: rest
      ∧ get_product t k = None
      ∧ ∀ k', k' ∈ shown → is_Some (get_product t k')
  end.
Proof.
  revert keys. induction entries as [|[pid qty] rest IH]; intros keys.
  - cbn. split; [by rewrite app_nil_r | set_solver].
  - cbn [display_loop]. destruct (get_product t pid) as [p|] eqn:Hp.
    + specialize (IH (keys ++ [pid])).
      destruct (display_loop t rest (keys ++ [pid])) as [keys' []].
      * destruct IH as [-> Hall]. split; [by rewrite <-app_assoc |].
        intros k Hk. rewrite fmap_cons in Hk. cbn [fst] in Hk.
        apply elem_of_cons in Hk as [->|Hk]; [by rewrite Hp | by apply Hall].
      * destruct IH as (shown & k & rest' & -> & Hkeys & Hk & Hshown).
        exists (pid :: shown), k, rest'. split_and!.
        -- by rewrite <-app_assoc.
        -- by rewrite fmap_cons, Hkeys.
        -- done.
        -- intros k' Hk'.
           apply elem_of_cons in Hk' as [->|Hk'];
             [by rewrite Hp | by apply Hshown].
    + exists [], pid, rest.*1. split_and!;
        [by rewrite app_nil_r | done | done | set_solver].
Qed.

Lemma update_cart_display_props (app : POSApp) :
  let r := update_cart_display app in
  let t := working (app_session app) in
  cart r.1 = cart app ∧ app_session r.1 = app_session app
  ∧ keys_ok r.1
  ∧ ((∀ k, k ∈ (cart app).*1 → is_Some (get_product t k))
     → r.2 = Returned ∧ cart_keys r.1 = (cart app).*1)
  ∧ (∀ k, k ∈ (cart app).*1 → get_product t k = None
     → r.2 = Raised AttributeError ∧ k ∉ cart_keys r.1).
Proof.
  cbn zeta. unfold update_cart_display, keys_ok.
  pose proof (display_loop_spec (working (app_session app)) (cart app) [])
    as Hloop.
  destruct (display_loop _ (cart app) []) as [keys []]; cbn [fst snd cart
    app_session cart_keys].
  - destruct Hloop as [-> Hall]. split_and!; try done.
    intros k Hk Hnone. apply Hall in Hk. rewrite Hnone in Hk.
    by destruct Hk.
  - destruct Hloop as (shown & k & rest & -> & Hkeys & Hk & Hshown).
    split_and!; try done.
    + rewrite Hkeys. by apply prefix_app_r.
    + intros Hall. exfalso. specialize (Hall k). rewrite Hk in Hall.
      destruct Hall; [|done]. rewrite Hkeys. set_solver.
    + intros k' _ Hnone. split; [done |]. intros Hin.
      apply Hshown in Hin. rewrite Hnone in Hin. by destruct Hin.
Qed.

(** X2.  [update_cart_display] touches neither the cart nor the session.  It
    returns when every product of the cart exists, and then [cart_keys]
    is the list of the cart's keys; otherwise it raises [AttributeError]
    and [cart_keys] stops before the first key whose product is gone. *)
Theorem update_cart_display_spec (app : POSApp) :
  let r := update_cart_display app in
  let t := working (app_session app) in
  cart r.1 = cart app ∧ app_session r.1 = app_session app
  ∧ keys_ok r.1
  ∧ ((∀ k, k ∈ (cart app).*1 → is_Some (get_product t k))
     → r.2 = Returned ∧ cart_keys r.1 = (cart app).*1)
  ∧ (∀ k, k ∈ (cart app).*1 → get_product t k = None
     → r.2 = Raised AttributeError ∧ k ∉ cart_keys r.1).
Proof. apply update_cart_display_props. Qed.

Lemma update_cart_display_keys_ok app : keys_ok (update_cart_display app).1.
Proof. apply update_cart_display_props. Qed.

Lemma checkout_cart_keys now app :
  let app' := (_checkout now app).1 in
  (cart app' = cart app ∧ cart_keys app' = cart_keys app)
  ∨ (cart app' = [] ∧ cart_keys app' = []).
Proof.
  cbn zeta. unfold _checkout.
  destruct (cart app) as [|e c] eqn:Hcart; [by left |].
  destruct (add_order _ _) as [order t].
  destruct (checkout_loop _ _ _ _) as [tl [early|tot]]; [by left |].
  destruct (save_receipt _ _); [by right | by left].
Qed.

Lemma handle_keys_ok e app : keys_ok app → keys_ok (handle e app).1.
Proof.
  intros Hok.
  destruct e as [pid qty|sel|confirm|nm price st|selected confirm|now];
    cbn [handle].
  - apply update_cart_display_keys_ok.
  - unfold _remove_selected. destruct sel as [idx|]; [|done].
    destruct (cart_keys app !! idx) as [pid|]; [|done].
    destruct (cart_del _ pid); [|done]. apply update_cart_display_keys_ok.
  - unfold _clear_cart. destruct confirm; [|done].
    apply update_cart_display_keys_ok.
  - unfold _add_product. destruct nm as [nm|]; [|done].
    case_decide; [done |].
    by destruct price as [price|], st as [st|].
  - unfold _delete_product. destruct selected as [pid|]; [|done].
    destruct (get_product _ pid); [|done]. by destruct confirm.
  - unfold keys_ok.
    destruct (checkout_cart_keys now app) as [[-> ->] | [-> ->]];
      [done | apply prefix_nil].
Qed.

Lemma reachable_keys_ok (es : list event) : keys_ok (run es init).
Proof.
  assert (Hrun : ∀ app, keys_ok app → keys_ok (run es app)).
  { induction es as [|e es IH]; intros app Hok; [done |].
    apply IH. by apply handle_keys_ok. }
  apply Hrun. apply prefix_nil.
Qed.

(** X3.  In a state the operator can reach, "Remove Item" on a line of the
    cart list never raises [IndexError] or [KeyError]: it removes the
    whole entry of that line's product, keeps the other entries in their
    order, and leaves the session alone. *)
Theorem remove_selected_removes_entry
    (es : list event) (idx : nat) (pid : Z) :
  let app := run es init in
  cart_keys app !! idx = Some pid →
  let r := _remove_selected (Some idx) app in
  pid ∈ (cart app).*1
  ∧ cart r.1 = filter (λ e : Z * Qc, e.1 ≠ pid) (cart app)
  ∧ app_session r.1 = app_session app
  ∧ (r.2 = Returned ∨ r.2 = Raised AttributeError).
Proof.
  cbn zeta. intros Hidx.
  pose proof (reachable_keys_ok es) as Hkeys.
  destruct (reachable_wf es) as [_ Hnd].
  set (app := run es init) in *.
  assert (Hin : pid ∈ (cart app).*1).
  { destruct Hkeys as [rest ->]. apply elem_of_app. left.
    by eapply list_elem_of_lookup_2. }
  unfold _remove_selected. rewrite Hidx.
  destruct (cart_del (cart app) pid) as [c|] eqn:Hdel;
    [|by apply cart_del_None in Hdel].
  apply cart_del_filter in Hdel; [|done].
  rewrite update_cart_display_cart, update_cart_display_session.
  cbn [cart app_session]. split_and!; try done.
  unfold update_cart_display. destruct (display_loop _ _ _) as [keys []];
    [by left | by right].
Qed.

Lemma remove_selected_removes_entry_witness :
  let app := run [AddToCart 1 half; AddToCart 2 1] init in
  let r := _remove_selected (Some 0%nat) app in
  1%Z ∈ (cart app).*1
  ∧ cart r.1 = filter (λ e : Z * Qc, e.1 ≠ 1%Z) (cart app)
  ∧ app_session r.1 = app_session app
  ∧ (r.2 = Returned ∨ r.2 = Raised AttributeError).
Proof.
  apply (remove_selected_removes_entry [AddToCart 1 half; AddToCart 2 1] 0 1).
  vm_compute. reflexivity.
Defined.

(** X4.  Adding a product that is not in the cart and removing the line it got
    gives the cart back (every product of the cart being in the
    catalog). *)
Theorem add_then_remove (app : POSApp) (pid : Z) (qty : Qc) :
  pid ∉ (cart app).*1 →
  (∀ k, k ∈ (cart app).*1 ++ [pid] →
        is_Some (get_product (working (app_session app)) k)) →
  let app1 := (add_to_cart pid qty app).1 in
  cart_keys app1 = (cart app).*1 ++ [pid]
  ∧ cart (_remove_selected (Some (length (cart app))) app1).1 = cart app.
Proof.
  intros Hfresh Hall. cbn zeta.
  assert (Hcart : cart (add_to_cart pid qty app).1
                  = cart_set (cart app) pid (cart_get (cart app) pid 0 + qty))
    by apply add_to_cart_cart.
  assert (Hkeys : cart_keys (add_to_cart pid qty app).1
                  = (cart app).*1 ++ [pid]).
  { unfold add_to_cart.
    match goal with
    | |- cart_keys (update_cart_display ?a).1 = _ =>
      destruct (update_cart_display_props a) as (_ & _ & _ & Hret & _)
    end.
    cbn [cart app_session] in Hret.
    rewrite cart_set_keys, decide_False in Hret by done.
    by apply Hret. }
  split; [done |]. unfold _remove_selected. rewrite Hkeys.
  rewrite <-(length_fmap fst), list_lookup_middle by done.
  rewrite Hcart, cart_del_set_fresh by done.
  by rewrite update_cart_display_cart.
Qed.

Lemma add_then_remove_witness :
  let app := (add_to_cart 1 half init).1 in
  let app1 := (add_to_cart 2 1 app).1 in
  cart_keys app1 = (cart app).*1 ++ [2%Z]
  ∧ cart (_remove_selected (Some (length (cart app))) app1).1 = cart app.
Proof.
  apply (add_then_remove (add_to_cart 1 half init).1 2 1).
  - vm_compute. intros Hin. apply list_elem_of_singleton in Hin.
    discriminate Hin.
  - intros k Hk. vm_compute in Hk.
    apply elem_of_cons in Hk as [->|Hk];
      [|apply list_elem_of_singleton in Hk as ->]; vm_compute; eauto.
Defined.

(** ** Upsert and delete *)

Lemma query_by_name_None t nm :
  query_by_name t nm = None →
  ∀ pid p, products t !! pid = Some p → Product.name p ≠ nm.
Proof.
  unfold query_by_name. intros Hhd pid p Hp Hnm.
  apply head_None in Hhd.
  eapply (filter_nil_not_elem_of _ _ (pid, p)); [exact Hhd | done |].
  by apply elem_of_map_to_list.
Qed.

Lemma query_by_name_unique t nm pid p :
  names_unique t → products t !! pid = Some p → Product.name p = nm →
  query_by_name t nm = Some (pid, p).
Proof.
  intros Huniq Hp Hnm.
  destruct (query_by_name t nm) as [[pid' p']|] eqn:Hq.
  - apply query_by_name_Some in Hq as [Hp' Hnm'].
    assert (pid' = pid) as -> by (eapply Huniq; [done | done | congruence]).
    congruence.
  - by eapply query_by_name_None in Hq.
Qed.

Lemma next_rowid_free (m : gmap Z Product) :
  m !! next_rowid (map_to_list m).*1 = None.
Proof.
  apply not_elem_of_dom. intros Hin.
  apply (next_rowid_fresh (map_to_list m).*1).
  apply elem_of_dom in Hin as [p Hp].
  apply list_elem_of_fmap. exists (next_rowid (map_to_list m).*1, p).
  split; [done |]. by apply elem_of_map_to_list.
Qed.

Lemma NoDup_fmap_eq {A B} (f : A → B) (l : list A) x y :
  NoDup (f <$> l) → x ∈ l → y ∈ l → f x = f y → x = y.
Proof.
  induction l as [|z l IH]; intros Hnd Hx Hy Hf; [by apply elem_of_nil in Hx |].
  rewrite fmap_cons in Hnd. apply NoDup_cons in Hnd as [Hz Hnd].
  apply elem_of_cons in Hx as [->|Hx], Hy as [->|Hy]; [done | | | by apply IH].
  - exfalso. apply Hz. rewrite Hf. by apply list_elem_of_fmap_2.
  - exfalso. apply Hz. rewrite <-Hf. by apply list_elem_of_fmap_2.
Qed.

(** Names are unique when the list of the names of the rows has no
    duplicate (a test that can be run). *)
Lemma names_unique_NoDup t :
  NoDup ((λ kp : Z * Product, Product.name kp.2) <$> map_to_list (products t))
  → names_unique t.
Proof.
  intros Hnd i j p q Hi Hj Hname.
  apply elem_of_map_to_list in Hi, Hj.
  by pose proof (NoDup_fmap_eq _ _ (i, p) (j, q) Hnd Hi Hj Hname) as [= -> _].
Qed.

(** X5.  An upsert under a name that the catalog has overwrites the price and
    the stock of that product (the old values are not added to), keeps
    its id and its name, and commits; no other product, no order, no
    order item and no cart entry is touched. *)
Theorem upsert_existing (app : POSApp) (nm : string) (pr st : Qc)
    (pid : Z) (p : Product) :
  let t := working (app_session app) in
  nm ≠ "" → names_unique t →
  products t !! pid = Some p → Product.name p = nm →
  let r := _add_product (Some nm) (Some pr) (Some st) app in
  let t' := committed (app_session r.1) in
  r.2 = Returned
  ∧ working (app_session r.1) = t'
  ∧ products t'
    = <[pid := {| Product.name := nm; Product.price_per_unit := pr;
                  Product.stock := st |}]> (products t)
  ∧ orders t' = orders t ∧ order_items t' = order_items t
  ∧ cart r.1 = cart app.
Proof.
  cbn zeta. intros Hnm Huniq Hp Hname. unfold _add_product.
  rewrite decide_False by done.
  rewrite (query_by_name_unique _ nm pid p) by done.
  cbn. by rewrite Hname.
Qed.

Lemma upsert_existing_witness :
  let t := working (app_session milk_cart) in
  let r := _add_product (Some "Milk (per kg)") (Some (Q2Qc 160))
                        (Some (Q2Qc 30)) milk_cart in
  let t' := committed (app_session r.1) in
  r.2 = Returned
  ∧ working (app_session r.1) = t'
  ∧ products t'
    = <[1%Z := {| Product.name := "Milk (per kg)";
                  Product.price_per_unit := Q2Qc 160;
                  Product.stock := Q2Qc 30 |}]> (products t)
  ∧ orders t' = orders t ∧ order_items t' = order_items t
  ∧ cart r.1 = cart milk_cart.
Proof.
  apply (upsert_existing milk_cart "Milk (per kg)" (Q2Qc 160) (Q2Qc 30) 1
           {| Product.name := "Milk (per kg)";
              Product.price_per_unit := Q2Qc 150;
              Product.stock := Q2Qc 100 |}).
  - discriminate.
  - apply names_unique_NoDup, (bool_decide_unpack _). vm_compute. exact I.
  - vm_compute. reflexivity.
  - reflexivity.
Defined.

(** X6.  An upsert under a name that the catalog does not have adds one
    product, under an id that was free, and commits; every product that
    was there, every order, every order item and the cart stay as they
    were. *)
Theorem upsert_new (app : POSApp) (nm : string) (pr st : Qc) :
  let t := working (app_session app) in
  nm ≠ "" →
  (∀ pid p, products t !! pid = Some p → Product.name p ≠ nm) →
  let r := _add_product (Some nm) (Some pr) (Some st) app in
  let t' := committed (app_session r.1) in
  r.2 = Returned
  ∧ working (app_session r.1) = t'
  ∧ (∃ pid, products t !! pid = None
            ∧ products t'
              = <[pid := {| Product.name := nm; Product.price_per_unit := pr;
                            Product.stock := st |}]> (products t))
  ∧ size (products t') = S (size (products t))
  ∧ orders t' = orders t ∧ order_items t' = order_items t
  ∧ cart r.1 = cart app.
Proof.
  cbn zeta. intros Hnm Hnew. unfold _add_product.
  rewrite decide_False by done.
  destruct (query_by_name _ nm) as [[pid p]|] eqn:Hq.
  { apply query_by_name_Some in Hq as [Hp Hname]. by apply Hnew in Hp. }
  cbn. split_and!; try done.
  - eexists. split; [apply next_rowid_free | done].
  - rewrite map_size_insert_None; [done | apply next_rowid_free].
Qed.

Lemma upsert_new_witness :
  let t := working (app_session milk_cart) in
  let r := _add_product (Some "Lassi") (Some (Q2Qc 80)) (Some (Q2Qc 20))
                        milk_cart in
  let t' := committed (app_session r.1) in
  r.2 = Returned
  ∧ working (app_session r.1) = t'
  ∧ (∃ pid, products t !! pid = None
            ∧ products t'
              = <[pid := {| Product.name := "Lassi";
                            Product.price_per_unit := Q2Qc 80;
                            Product.stock := Q2Qc 20 |}]> (products t))
  ∧ size (products t') = S (size (products t))
  ∧ orders t' = orders t ∧ order_items t' = order_items t
  ∧ cart r.1 = cart milk_cart.
Proof.
  apply (upsert_new milk_cart "Lassi" (Q2Qc 80) (Q2Qc 20)).
  - discriminate.
  - change (map_Forall (λ _ p, Product.name p ≠ "Lassi")
                       (products (working (app_session milk_cart)))).
    apply (bool_decide_unpack _). vm_compute. exact I.
Defined.

(** ** What a checkout never changes *)

Lemma checkout_loop_printed oid entries tot t k :
  printed <$> products (checkout_loop oid entries tot t).1 !! k
  = printed <$> products t !! k.
Proof.
  revert tot t. induction entries as [|[pid qty] rest IH]; intros tot t.
  - done.
  - cbn [checkout_loop]. destruct (get_product t pid) as [p|] eqn:Hp; [|done].
    case_bool_decide; [done |]. rewrite IH.
    unfold add_item, set_stock, set_products. cbn [products].
    destruct (decide (pid = k)) as [->|Hne].
    + rewrite lookup_insert_eq. unfold get_product in Hp. by rewrite Hp.
    + by rewrite lookup_insert_ne.
Qed.

Lemma checkout_printed (now : datetime) (app : POSApp) :
  let s := app_session app in
  let s' := app_session (_checkout now app).1 in
  (∀ k, printed <$> products (working s') !! k
        = printed <$> products (working s) !! k)
  ∧ (committed s' = committed s
     ∨ ∀ k, printed <$> products (committed s') !! k
            = printed <$> products (working s) !! k).
Proof.
  cbn zeta. unfold _checkout.
  destruct (cart app) as [|e c]; [by split; [|left] |].
  cbn [add_order commit working committed Order.id].
  set (t0 := {| products := products (working (app_session app)) |}).
  pose proof (checkout_loop_printed
                (next_rowid (Order.id <$> orders (working (app_session app))))
                (e :: c) 0 t0) as Hloop.
  destruct (checkout_loop _ (e :: c) 0 t0) as [tl [early|tot]];
    cbn [fst] in Hloop.
  - split; [done | by right].
  - destruct (save_receipt _ _); (split; [done | by right]).
Qed.

(** X14.  Whatever its outcome, a checkout leaves every product its name and
    its price, and neither adds nor removes a product, in the session and
    in the committed tables (which end up with the products the session
    had, or are not written at all). *)
Theorem checkout_keeps_names_and_prices (now : datetime) (app : POSApp) :
  let s := app_session app in
  let s' := app_session (_checkout now app).1 in
  (∀ k, printed <$> products (working s') !! k
        = printed <$> products (working s) !! k)
  ∧ (committed s' = committed s
     ∨ ∀ k, printed <$> products (committed s') !! k
            = printed <$> products (working s) !! k).
Proof. apply checkout_printed. Qed.

Lemma names_unique_ext t t' :
  (∀ k, Product.name <$> products t' !! k = Product.name <$> products t !! k)
  → names_unique t → names_unique t'.
Proof.
  intros Hext Huniq i j p q Hi Hj Hname.
  pose proof (Hext i) as Hi'. pose proof (Hext j) as Hj'.
  rewrite Hi in Hi'. rewrite Hj in Hj'.
  destruct (products t !! i) as [p0|] eqn:Hp0; [|done].
  destruct (products t !! j) as [q0|] eqn:Hq0; [|done].
  injection Hi' as Hpn. injection Hj' as Hqn.
  apply (Huniq i j p0 q0); [done | done | congruence].
Qed.

Lemma printed_name (o o' : option Product) :
  printed <$> o = printed <$> o' → Product.name <$> o = Product.name <$> o'.
Proof. destruct o, o'; try done. cbn. by intros [= -> _]. Qed.

Lemma names_unique_upsert t nm price stock :
  names_unique t →
  names_unique
    match query_by_name t nm with
    | Some (pid, prod) =>
      set_products
        (<[pid := {| Product.name := Product.name prod;
                     Product.price_per_unit := price;
                     Product.stock := stock |}]> (products t)) t
    | None =>
      add_product_row
        {| Product.name := nm; Product.price_per_unit := price;
           Product.stock := stock |} t
    end.
Proof.
  intros Huniq. destruct (query_by_name t nm) as [[pid prod]|] eqn:Hq.
  - apply query_by_name_Some in Hq as [Hprod _].
    eapply names_unique_ext; [|exact Huniq].
    intros k. cbn [set_products products].
    destruct (decide (pid = k)) as [->|Hne].
    + by rewrite lookup_insert_eq, Hprod.
    + by rewrite lookup_insert_ne.
  - pose proof (query_by_name_None _ _ Hq) as Hnew.
    pose proof (next_rowid_free (products t)) as Hfree.
    unfold add_product_row, set_products.
    set (new := next_rowid _) in *.
    intros i j p q. cbn [products].
    destruct (decide (new = i)) as [<-|Hi], (decide (new = j)) as [<-|Hj];
      [done | | |].
    + rewrite lookup_insert_eq, lookup_insert_ne by done.
      intros [= <-] Hq' Hname. cbn in Hname. by apply Hnew in Hq'.
    + rewrite lookup_insert_eq, lookup_insert_ne by done.
      intros Hp' [= <-] Hname. cbn in Hname. by apply Hnew in Hp'.
    + rewrite !lookup_insert_ne by done. apply Huniq.
Qed.

Lemma names_unique_delete pid t :
  names_unique t → names_unique (set_products (delete pid (products t)) t).
Proof.
  intros Huniq i j p q. cbn [set_products products].
  intros Hi%lookup_delete_Some Hj%lookup_delete_Some.
  destruct Hi as [_ Hi], Hj as [_ Hj]. by apply Huniq.
Qed.

Lemma handle_names_unique e app :
  names_unique (working (app_session app))
  ∧ names_unique (committed (app_session app)) →
  names_unique (working (app_session (handle e app).1))
  ∧ names_unique (committed (app_session (handle e app).1)).
Proof.
  intros [Hw Hc].
  destruct e as [pid qty|sel|confirm|nm price st|selected confirm|now];
    cbn [handle].
  - by rewrite add_to_cart_session.
  - unfold _remove_selected. destruct sel as [idx|]; [|done].
    destruct (cart_keys app !! idx) as [pid|]; [|done].
    destruct (cart_del _ pid); [|done].
    by rewrite update_cart_display_session.
  - unfold _clear_cart. destruct confirm; [|done].
    by rewrite update_cart_display_session.
  - unfold _add_product. destruct nm as [nm|]; [|done].
    case_decide; [done |].
    destruct price as [price|], st as [st|]; try done.
    cbn [fst with_session app_session commit working committed].
    split; by apply names_unique_upsert.
  - unfold _delete_product. destruct selected as [pid|]; [|done].
    destruct (get_product _ pid); [|done]. destruct confirm; [|done].
    cbn [fst with_session app_session commit working committed].
    split; by apply names_unique_delete.
  - destruct (checkout_printed now app) as [Hwork Hcomm].
    split.
    + eapply names_unique_ext; [|exact Hw].
      intros k. apply printed_name, Hwork.
    + destruct Hcomm as [-> | Hcomm]; [done |].
      eapply names_unique_ext; [|exact Hw].
      intros k. apply printed_name, Hcomm.
Qed.

(** X7.  In every state the operator can reach, no two products have the same
    name, in the session and in the committed tables: the unique column
    [name] never makes a commit fail. *)
Theorem reachable_names_unique (es : list event) :
  names_unique (working (app_session (run es init)))
  ∧ names_unique (committed (app_session (run es init))).
Proof.
  assert (Hrun : ∀ app,
             names_unique (working (app_session app))
             ∧ names_unique (committed (app_session app)) →
             names_unique (working (app_session (run es app)))
             ∧ names_unique (committed (app_session (run es app)))).
  { induction es as [|e es IH]; intros app Hok; [done |].
    apply IH. by apply handle_names_unique. }
  apply Hrun.
  split; apply names_unique_NoDup, (bool_decide_unpack _); vm_compute;
    exact I.
Qed.

(** ** Receipts and deleted products *)

Lemma receipt_line_None t it :
  receipt_line t it = None ↔ get_product t (OrderItem.product_id it) = None.
Proof. unfold receipt_line. by destruct (get_product _ _). Qed.

Lemma save_receipt_fails_iff (t : Tables) (order : Order) :
  save_receipt t order = None
  ↔ ∃ it, it ∈ items_of t (Order.id order)
          ∧ get_product t (OrderItem.product_id it) = None.
Proof.
  unfold save_receipt.
  destruct (mapM (receipt_line t) (items_of t (Order.id order)))
    as [body|] eqn:Hbody; cbn.
  - split; [done |]. intros (it & Hin & Hnone).
    assert (Hsome : is_Some (mapM (receipt_line t)
                                  (items_of t (Order.id order))))
      by (by rewrite Hbody).
    apply mapM_is_Some_1 in Hsome.
    rewrite Forall_forall in Hsome. apply Hsome in Hin as [line Hline].
    cbn in Hline. apply receipt_line_None in Hnone. congruence.
  - split; [|done]. intros _.
    apply mapM_None_1, Exists_exists in Hbody as (it & Hin & Hnone).
    exists it. split; [done |]. by apply receipt_line_None.
Qed.

(** X10.  [save_receipt] raises exactly when an item of the order points to a
    product that is no longer in the catalog. *)
Theorem save_receipt_None (t : Tables) (order : Order) :
  save_receipt t order = None
  ↔ ∃ it, it ∈ items_of t (Order.id order)
          ∧ get_product t (OrderItem.product_id it) = None.
Proof. apply save_receipt_fails_iff. Qed.

(** X9.  A confirmed delete removes the selected product and nothing else: the
    other products, the orders, the order items (those of the deleted
    product included) and the cart stay, and the change is committed.
    From then on the receipt of an order that sold the product cannot be
    made any more. *)
Theorem delete_sold_product (app : POSApp) (pid : Z) (p : Product)
    (order : Order) (it : OrderItem) :
  let t := working (app_session app) in
  get_product t pid = Some p →
  it ∈ items_of t (Order.id order) → OrderItem.product_id it = pid →
  let r := _delete_product (Some pid) true app in
  let t' := committed (app_session r.1) in
  r.2 = Returned
  ∧ working (app_session r.1) = t'
  ∧ products t' = delete pid (products t)
  ∧ orders t' = orders t ∧ order_items t' = order_items t
  ∧ cart r.1 = cart app
  ∧ save_receipt t' order = None.
Proof.
  cbn zeta. intros Hp Hit Hpid. unfold _delete_product. rewrite Hp.
  cbn [fst snd with_session app_session commit working committed cart
       set_products products orders order_items].
  split_and!; try done.
  apply save_receipt_fails_iff. exists it. split; [done |].
  unfold get_product. cbn [set_products products].
  rewrite Hpid. apply lookup_delete_eq.
Qed.

Lemma delete_sold_product_witness :
  let t := working (app_session after_sale) in
  let r := _delete_product (Some 1%Z) true after_sale in
  let t' := committed (app_session r.1) in
  r.2 = Returned
  ∧ working (app_session r.1) = t'
  ∧ products t' = delete 1%Z (products t)
  ∧ orders t' = orders t ∧ order_items t' = order_items t
  ∧ cart r.1 = cart after_sale
  ∧ save_receipt t' first_order = None.
Proof.
  apply (delete_sold_product after_sale 1
           {| Product.name := "Milk (per kg)";
              Product.price_per_unit := Q2Qc 150;
              Product.stock := fsub (Q2Qc 100) (half + half) |}
           first_order
           {| OrderItem.id := 1; OrderItem.order_id := 1;
              OrderItem.product_id := 1; OrderItem.quantity := half + half;
              OrderItem.line_total := fmul (Q2Qc 150) (half + half) |}).
  - vm_compute. reflexivity.
  - vm_compute. apply list_elem_of_here.
  - reflexivity.
Defined.

(** ** When a checkout succeeds, and where it stops when it does not *)

Lemma cart_in_stock_cons t k q (rest : Cart) :
  cart_in_stock t ((k, q) :: rest)
  ↔ (∃ p, get_product t k = Some p ∧ q ≤ Product.stock p)
    ∧ cart_in_stock t rest.
Proof.
  unfold cart_in_stock. split.
  - intros Hall. split; [apply Hall; left |].
    intros pid qty Hin. apply Hall. by right.
  - intros [Hk Hrest] pid qty Hin.
    apply elem_of_cons in Hin as [[= -> ->]|Hin]; [done | by apply Hrest].
Qed.

(** The step of the loop on an entry leaves the other cart entries as
    well stocked as they were. *)
Lemma cart_in_stock_step oid k q p line t (rest : Cart) :
  k ∉ rest.*1 →
  cart_in_stock
    (add_item oid k q line (set_stock k p (fsub (Product.stock p) q) t)) rest
  ↔ cart_in_stock t rest.
Proof.
  intros Hk. unfold cart_in_stock, get_product, add_item, set_stock,
    set_products. cbn [products].
  split; intros Hall pid qty Hin.
  - specialize (Hall pid qty Hin). rewrite lookup_insert_ne in Hall; [done |].
    intros ->. apply Hk. apply list_elem_of_fmap. by exists (pid, qty).
  - rewrite lookup_insert_ne; [by apply Hall |].
    intros ->. apply Hk. apply list_elem_of_fmap. by exists (pid, qty).
Qed.

Lemma checkout_loop_inr oid (entries : Cart) tot t :
  NoDup entries.*1 →
  (∃ t' tot', checkout_loop oid entries tot t = (t', inr tot'))
  ↔ cart_in_stock t entries.
Proof.
  revert tot t. induction entries as [|[k q] rest IH]; intros tot t Hnd.
  - split; [|by eauto]. intros _ pid qty Hin. by apply elem_of_nil in Hin.
  - rewrite fmap_cons in Hnd. apply NoDup_cons in Hnd as [Hk Hnd].
    rewrite cart_in_stock_cons. cbn [checkout_loop].
    destruct (get_product t k) as [p|] eqn:Hp.
    + case_bool_decide as Hlt.
      * split; [by intros (? & ? & ?) |].
        intros [(p' & [= <-] & Hle) _]. by apply Qcle_ngt in Hle.
      * rewrite IH, cart_in_stock_step by done.
        split; [|by intros [_ ?]]. intros Hrest. split; [|done].
        exists p. split; [done | by apply Qcle_ngt].
    + split; [by intros (? & ? & ?) | by intros [(p' & ? & _) _]].
Qed.




Lemma checkout_loop_app oid (pre post : Cart) tot t :
  checkout_loop oid (pre ++ post) tot t
  = match checkout_loop oid pre tot t with
    | (t1, inr tot1) => checkout_loop oid post tot1 t1
    | (t1, inl early) => (t1, inl early)
    end.
Proof.
  revert tot t. induction pre as [|[k q] pre IH]; intros tot t; [done |].
  cbn [app checkout_loop]. destruct (get_product t k) as [p|]; [|done].
  by case_bool_decide.
Qed.

(** X12.  A checkout stops at the first entry of the cart whose product is gone
    (uncaught [AttributeError]) or has less stock than the entry asks for
    ([InsufficientStockError] with its name).  The cart is kept.  By then
    the new order row is committed, with total 0 and no item; the entries
    before the stop have had their stock replaced by the float difference
    of stock and quantity ([sold]) and their order items added in the
    session, where they wait for the next commit; no other product has
    changed.  This is stated of a checkout that leaves no infinite stock
    ([stocks_in_range]). *)
Theorem checkout_stops_at_first_bad_entry
    (now : datetime) (app : POSApp) (pre post : Cart) (pid : Z) (qty : Qc) :
  let t := working (app_session app) in
  NoDup (cart app).*1 →
  cart app = pre ++ (pid, qty) :: post →
  cart_in_stock t pre →
  (∀ p, get_product t pid = Some p → Product.stock p < qty) →
  let r := _checkout now app in
  let s' := app_session r.1 in
  stocks_in_range (products (working s')) →
  r.2 = match get_product t pid with
        | Some p => InsufficientStockError (Product.name p)
        | None => Raised AttributeError
        end
  ∧ cart r.1 = cart app
  ∧ committed s'
    = {| products := products t;
         orders := orders t
                   ++ [{| Order.id := next_rowid (Order.id <$> orders t);
                          Order.timestamp := now; Order.total := 0 |}];
         order_items := order_items t |}
  ∧ orders (working s') = orders (committed s')
  ∧ (∃ created, order_items (working s') = order_items t ++ created
                ∧ entry <$> created = pre)
  ∧ (∀ k q, (k, q) ∈ pre →
       ∃ p, products t !! k = Some p
            ∧ products (working s') !! k = Some (sold q p))
  ∧ (∀ k, k ∉ pre.*1 → products (working s') !! k = products t !! k).
Proof.
  cbn zeta. intros Hnd Hcart Hpre Hbad _.
  rewrite Hcart, fmap_app in Hnd.
  apply NoDup_app in Hnd as (Hndpre & Hdisj & _).
  assert (Hpid : pid ∉ pre.*1).
  { intros Hin. apply Hdisj in Hin. apply Hin. rewrite fmap_cons. by left. }
  unfold _checkout. destruct (cart app) as [|e c] eqn:Hc;
    [by destruct pre |].
  cbn [add_order commit working committed Order.id].
  set (t := working (app_session app)) in *.
  set (oid := next_rowid (Order.id <$> orders t)).
  set (t0 := {| products := products t |}).
  rewrite Hcart, checkout_loop_app.
  destruct (proj2 (checkout_loop_inr oid pre 0 t0 Hndpre) Hpre)
    as (t1 & tot1 & Hloop).
  rewrite Hloop.
  pose proof (checkout_loop_products_only oid pre 0 t0) as Horders.
  rewrite Hloop in Horders. cbn [fst] in Horders.
  destruct (checkout_loop_products _ _ _ _ _ _ Hndpre Hloop)
    as [Hsold Hframe].
  apply checkout_loop_items in Hloop as (created & Hitems & Hentries & _).
  assert (Hget : get_product t1 pid = get_product t pid)
    by (by apply Hframe).
  cbn [checkout_loop]. rewrite Hget.
  destruct (get_product t pid) as [p|] eqn:Hp.
  - rewrite bool_decide_eq_true_2 by (by apply (Hbad p)).
    cbn [fst snd with_session app_session cart working committed].
    split_and!; try done; [by rewrite Hc | by exists created].
  - cbn [fst snd with_session app_session cart working committed].
    split_and!; try done; [by rewrite Hc | by exists created].
Qed.

Lemma checkout_stops_at_first_bad_entry_witness :
  let t := working (app_session greedy_cart) in
  let r := _checkout noon greedy_cart in
  let s' := app_session r.1 in
  r.2 = match get_product t 2 with
        | Some p => InsufficientStockError (Product.name p)
        | None => Raised AttributeError
        end
  ∧ cart r.1 = cart greedy_cart
  ∧ committed s'
    = {| products := products t;
         orders := orders t
                   ++ [{| Order.id := next_rowid (Order.id <$> orders t);
                          Order.timestamp := noon; Order.total := 0 |}];
         order_items := order_items t |}
  ∧ orders (working s') = orders (committed s')
  ∧ (∃ created, order_items (working s') = order_items t ++ created
                ∧ entry <$> created = [(1%Z, 0 + 1)])
  ∧ (∀ k q, (k, q) ∈ [(1%Z, 0 + 1)] →
       ∃ p, products t !! k = Some p
            ∧ products (working s') !! k = Some (sold q p))
  ∧ (∀ k, k ∉ [(1%Z, 0 + 1)].*1 →
       products (working s') !! k = products t !! k).
Proof.
  apply (checkout_stops_at_first_bad_entry noon greedy_cart
           [(1%Z, 0 + 1)] [] 2 (0 + Q2Qc 101)).
  - apply (bool_decide_unpack _). vm_compute. exact I.
  - vm_compute. reflexivity.
  - intros pid qty Hin. apply list_elem_of_singleton in Hin as [= -> ->].
    eexists. split; [vm_compute; reflexivity | vm_compute; discriminate].
  - intros p Hp. vm_compute in Hp. injection Hp as <-. vm_compute. reflexivity.
  - apply (bool_decide_unpack _). vm_compute. exact I.
Defined.

(** ** The total on the label and the total on the order *)

Lemma display_total_ext t t' (entries : Cart) tot :
  (∀ k, printed <$> products t' !! k = printed <$> products t !! k) →
  display_total t' entries tot = display_total t entries tot.
Proof.
  intros Hext. revert tot.
  induction entries as [|[pid qty] rest IH]; intros tot; [done |].
  cbn [display_total]. unfold get_product. specialize (Hext pid).
  destruct (products t' !! pid) as [p'|], (products t !! pid) as [p|];
    try done.
  injection Hext as _ ->. apply IH.
Qed.

Lemma checkout_loop_display oid (entries : Cart) tot t t' tot' :
  checkout_loop oid entries tot t = (t', inr tot') →
  display_total t entries tot = Some tot'.
Proof.
  revert tot t. induction entries as [|[pid qty] rest IH]; intros tot t.
  - by intros [= _ ->].
  - cbn [checkout_loop display_total].
    destruct (get_product t pid) as [p|] eqn:Hp; [|done].
    case_bool_decide; [done |]. intros Hloop. apply IH in Hloop.
    rewrite <-Hloop. symmetry. apply display_total_ext. intros k.
    unfold add_item, set_stock, set_products. cbn [products].
    destruct (decide (pid = k)) as [->|Hne].
    + rewrite lookup_insert_eq. unfold get_product in Hp. by rewrite Hp.
    + by rewrite lookup_insert_ne.
Qed.

(** X15.  The total of the order that a checkout commits is the total that the
    cart display computes from the same cart and catalog: the sum, in
    the cart's order, of current price times pending quantity. *)
Theorem checkout_charges_displayed_total
    (now : datetime) (app app' : POSApp) (order : Order) (text : string) :
  _checkout now app = (app', Receipt order text) →
  display_total (working (app_session app)) (cart app) 0
  = Some (Order.total order).
Proof.
  intros Hco.
  apply checkout_success in Hco as (tl & tot & Hloop & -> & _).
  cbn zeta in Hloop. apply checkout_loop_display in Hloop.
  cbn [Order.total]. rewrite <-Hloop. symmetry.
  by apply display_total_ext.
Qed.

Lemma checkout_charges_displayed_total_witness :
  display_total (working (app_session cart_then_reprice))
                (cart cart_then_reprice) 0
  = Some (Order.total order_at_new_price).
Proof.
  apply (checkout_charges_displayed_total noon cart_then_reprice
           (run [Checkout noon] cart_then_reprice) order_at_new_price
           (match (_checkout noon cart_then_reprice).2 with
            | Receipt _ text => text
            | _ => ""
            end)).
  vm_compute. reflexivity.
Defined.

(** ** Orders and order items are only ever appended *)





(** ** Seeding *)

Lemma seed_rows_products (rows : list (string * Qc)) t t' :
  products t = products t' →
  products (foldl (λ t np, add_product_row
                             {| Product.name := np.1;
                                Product.price_per_unit := np.2;
                                Product.stock := Q2Qc 100 |} t) t rows)
  = products (foldl (λ t np, add_product_row
                               {| Product.name := np.1;
                                  Product.price_per_unit := np.2;
                                  Product.stock := Q2Qc 100 |} t) t' rows).
Proof.
  revert t t'. induction rows as [|np rows IH]; intros t t' Heq; [done |].
  cbn [foldl]. apply IH. unfold add_product_row, set_products.
  cbn [products]. by rewrite Heq.
Qed.

Lemma seed_rows_history (rows : list (string * Qc)) t :
  let t' := foldl (λ t np, add_product_row
                             {| Product.name := np.1;
                                Product.price_per_unit := np.2;
                                Product.stock := Q2Qc 100 |} t) t rows in
  orders t' = orders t ∧ order_items t' = order_items t.
Proof.
  cbn zeta. revert t. induction rows as [|np rows IH]; intros t; [done |].
  cbn [foldl]. by destruct (IH (add_product_row
                                  {| Product.name := np.1;
                                     Product.price_per_unit := np.2;
                                     Product.stock := Q2Qc 100 |} t))
    as [-> ->].
Qed.

(** X19.  The seeding block fills an empty catalog with the defaults, the ones
    the module-level [session] starts with, and leaves a catalog that has
    a product as it is; run a second time it changes nothing.  It never
    touches orders or order items. *)
Theorem seed_only_fills_empty_catalog (t : Tables) :
  (products t = ∅ → products (seed t) = products (working session))
  ∧ (products t ≠ ∅ → seed t = t)
  ∧ seed (seed t) = seed t
  ∧ orders (seed t) = orders t ∧ order_items (seed t) = order_items t.
Proof.
  assert (Hfill : products t = ∅ →
                  products (seed t) = products (working session)).
  { intros Hempty. unfold seed.
    rewrite decide_True by (by rewrite Hempty, map_size_empty).
    by apply seed_rows_products. }
  assert (Hkeep : ∀ t', products t' ≠ ∅ → seed t' = t').
  { intros t' Hne. unfold seed. rewrite decide_False; [done |].
    by intros ?%map_size_empty_iff. }
  split_and!; [done | by apply Hkeep | | |].
  - destruct (decide (products t = ∅)) as [Hempty|Hne];
      [|by rewrite !(Hkeep t Hne)].
    apply Hkeep. rewrite Hfill by done.
    intros Hnone. apply (f_equal size) in Hnone. vm_compute in Hnone.
    discriminate Hnone.
  - unfold seed. case_decide; [apply seed_rows_history | done].
  - unfold seed. case_decide; [apply seed_rows_history | done].
Qed.

(** ** The product list *)

#[local] Instance by_name_total : Total by_name.
Proof. intros a b. apply String.leb_total. Qed.

Lemma elem_of_products_by_name t pid p :
  (pid, p) ∈ products_by_name t ↔ products t !! pid = Some p.
Proof.
  unfold products_by_name. rewrite merge_sort_Permutation.
  apply elem_of_map_to_list.
Qed.

Lemma elem_of_product_rows t pid nm pr st :
  (pid, nm, pr, st) ∈ product_rows t
  ↔ ∃ p, products t !! pid = Some p
         ∧ nm = Product.name p
         ∧ pr = format_2f (Product.price_per_unit p)
         ∧ st = format_2f (Product.stock p).
Proof.
  unfold product_rows. rewrite list_elem_of_fmap. split.
  - intros ([pid' p] & [= -> -> -> ->] & Hin).
    apply elem_of_products_by_name in Hin. by exists p.
  - intros (p & Hp & -> & -> & ->). exists (pid, p).
    split; [done | by apply elem_of_products_by_name].
Qed.

(** X20.  The product list shows the catalog: the query behind it returns every
    product once, in the order of the names, and the list has one row per
    product with its id, its name, and its price and stock to two
    decimals. *)
Theorem product_rows_spec (t : Tables) :
  Sorted by_name (products_by_name t)
  ∧ NoDup (products_by_name t).*1
  ∧ (∀ pid p,
       (pid, p) ∈ products_by_name t ↔ products t !! pid = Some p)
  ∧ (∀ pid nm pr st,
       (pid, nm, pr, st) ∈ product_rows t
       ↔ ∃ p, products t !! pid = Some p
              ∧ nm = Product.name p
              ∧ pr = format_2f (Product.price_per_unit p)
              ∧ st = format_2f (Product.stock p))
  ∧ length (product_rows t) = size (products t).
Proof.
  split_and!.
  - apply Sorted_merge_sort, _.
  - unfold products_by_name. rewrite merge_sort_Permutation.
    apply NoDup_fst_map_to_list.
  - apply elem_of_products_by_name.
  - apply elem_of_product_rows.
  - unfold product_rows, products_by_name.
    rewrite length_fmap, merge_sort_Permutation. apply length_map_to_list.
Qed.

(** X8.  "Delete" on a row of the product list never raises: the row's id is
    in the catalog.  Confirmed, it takes exactly that row off the list;
    declined, it changes nothing. *)
Theorem delete_listed_row (app : POSApp) (pid : Z) (nm pr st : string)
    (confirm : bool) :
  (pid, nm, pr, st) ∈ product_rows (working (app_session app)) →
  let r := _delete_product (Some pid) confirm app in
  r.2 = Returned
  ∧ (confirm = false → r.1 = app)
  ∧ (confirm = true →
     ∀ pid' nm' pr' st',
       (pid', nm', pr', st') ∈ product_rows (working (app_session r.1))
       ↔ (pid', nm', pr', st') ∈ product_rows (working (app_session app))
         ∧ pid' ≠ pid).
Proof.
  intros Hrow. cbn zeta.
  apply elem_of_product_rows in Hrow as (p & Hp & _).
  unfold _delete_product, get_product. rewrite Hp.
  destruct confirm; cbn [fst snd]; (split_and!; [done | done |]);
    [|done].
  intros _ pid' nm' pr' st'. rewrite !elem_of_product_rows.
  cbn [with_session app_session commit working set_products products].
  split.
  - intros (p' & [Hne Hp']%lookup_delete_Some & Hrest).
    split; [by eauto | done].
  - intros [(p' & Hp' & Hrest) Hne]. exists p'.
    split; [by apply lookup_delete_Some | done].
Qed.

Lemma delete_listed_row_witness :
  let r := _delete_product (Some 6%Z) true init in
  r.2 = Returned
  ∧ (true = false → r.1 = init)
  ∧ (true = true →
     ∀ pid' nm' pr' st',
       (pid', nm', pr', st') ∈ product_rows (working (app_session r.1))
       ↔ (pid', nm', pr', st') ∈ product_rows (working (app_session init))
         ∧ pid' ≠ 6%Z).
Proof.
  apply (delete_listed_row init 6 "Rice Pudding" "90.00" "100.00" true).
  vm_compute.
  repeat (first [apply list_elem_of_here | apply list_elem_of_further]).
Defined.

(** ** The sale buttons, and what they can put in a cart *)

(** Every button of the sale tab belongs to a product of the catalog it
    was built from, and adds one unit of it, or half a unit when the name
    has "per kg" in it. *)
Lemma sale_buttons_spec t pid qty text :
  (pid, qty, text) ∈ sale_buttons t →
  ∃ p, products t !! pid = Some p
       ∧ (qty = 1
          ∨ (qty = Q2Qc (1 # 2) ∧ per_kg (Product.name p) = true)).
Proof.
  unfold sale_buttons. intros ([k p] & Hin & Hkp)%list_elem_of_bind.
  apply elem_of_products_by_name in Hkp.
  apply list_elem_of_fmap in Hin as ([q label] & [= -> -> _] & Hq).
  exists p. split; [done |]. unfold variants in Hq. cbn [fst snd] in *.
  destruct (per_kg (Product.name p)).
  - apply elem_of_cons in Hq as [[= -> _]|Hq]; [by right |].
    apply list_elem_of_singleton in Hq as [= -> _]. by left.
  - apply list_elem_of_singleton in Hq as [= -> _]. by left.
Qed.

Lemma cart_get_nonneg (c : Cart) k :
  Forall (λ e : Z * Qc, 0 < e.2) c → 0 ≤ cart_get c k 0.
Proof.
  induction 1 as [|[k' v'] c Hv Hc IH]; cbn [cart_get]; [done |].
  case_decide; [by apply Qclt_le_weak | done].
Qed.

Lemma cart_set_Forall (P : Z * Qc → Prop) (c : Cart) k v :
  P (k, v) → Forall P c → Forall P (cart_set c k v).
Proof.
  intros Hkv. induction 1 as [|[k' v'] c Hv Hc IH]; cbn [cart_set].
  - by apply Forall_singleton.
  - case_decide; by apply Forall_cons.
Qed.

Lemma cart_del_Forall (P : Z * Qc → Prop) (c c' : Cart) k :
  cart_del c k = Some c' → Forall P c → Forall P c'.
Proof.
  intros Hdel Hall. revert c' Hdel.
  induction Hall as [|[k' v'] c Hv Hc IH]; intros c'; [done |].
  cbn [cart_del]. case_decide; [by intros [= <-] |].
  destruct (cart_del c k) as [c''|]; [|done]. intros [= <-].
  apply Forall_cons. split; [done | by apply IH].
Qed.

Lemma checkout_loop_quantities oid (entries : Cart) tot t :
  Forall (λ e : Z * Qc, 0 < e.2) entries →
  Forall (λ it, 0 < OrderItem.quantity it) (order_items t) →
  Forall (λ it, 0 < OrderItem.quantity it)
         (order_items (checkout_loop oid entries tot t).1).
Proof.
  intros Hentries. revert tot t.
  induction Hentries as [|[pid qty] rest Hqty Hrest IH]; intros tot t Hitems.
  - done.
  - cbn [checkout_loop]. destruct (get_product t pid) as [p|]; [|done].
    case_bool_decide; [done |]. apply IH.
    cbn [add_item order_items]. apply Forall_app. split; [done |].
    by apply Forall_singleton.
Qed.

Lemma handle_sold_by_buttons e app :
  button_press e → sold_by_buttons app → sold_by_buttons (handle e app).1.
Proof.
  intros He [Hcart Hitems].
  assert (Hpos : Forall (λ e : Z * Qc, 0 < e.2) (cart app))
    by (eapply Forall_impl; [exact Hcart | by intros ? [? _]]).
  destruct e as [pid qty|sel|confirm|nm price st|selected confirm|now];
    cbn [handle].
  - destruct He as (text & Hbutton).
    apply sale_buttons_spec in Hbutton as (p & Hp & Hqty).
    split; [|by rewrite add_to_cart_session].
    rewrite add_to_cart_cart. apply cart_set_Forall; [|done].
    cbn [fst snd]. split; [|by rewrite Hp].
    apply Qcplus_nonneg_pos; [by apply cart_get_nonneg |].
    by destruct Hqty as [-> | [-> _]].
  - unfold _remove_selected. destruct sel as [idx|]; [|done].
    destruct (cart_keys app !! idx) as [pid|]; [|done].
    destruct (cart_del _ pid) as [c|] eqn:Hdel; [|done].
    split; [|by rewrite update_cart_display_session].
    rewrite update_cart_display_cart. by eapply cart_del_Forall.
  - unfold _clear_cart. destruct confirm; [|done].
    split; [|by rewrite update_cart_display_session].
    by rewrite update_cart_display_cart.
  - unfold _add_product. destruct nm as [nm|]; [|done].
    case_decide; [done |].
    destruct price as [price|], st as [st|]; try done.
    split; [done |]. cbn [fst with_session app_session commit working].
    by destruct (query_by_name _ nm) as [[pid prod]|].
  - unfold _delete_product. destruct selected as [pid|]; [|done].
    destruct (get_product _ pid); [|done]. by destruct confirm.
  - split.
    + destruct (checkout_cart now app) as [-> | ->];
        [done | apply Forall_nil_2].
    + unfold _checkout. destruct (cart app) as [|e c]; [done |].
      cbn [add_order commit working committed Order.id].
      set (t0 := {| products := products (working (app_session app)) |}).
      pose proof (checkout_loop_quantities
                    (next_rowid
                       (Order.id <$> orders (working (app_session app))))
                    (e :: c) 0 t0 Hpos Hitems) as Hloop.
      destruct (checkout_loop _ (e :: c) 0 t0) as [tl [early|tot]];
        cbn [fst] in Hloop; [done |].
      by destruct (save_receipt _ _).
Qed.

(** X21.  The sale tab is built once, when the window opens.  So whatever else
    the operator does in between (upserts, deletions, checkouts), every
    key that button presses put in the cart is an id that the catalog
    had at start-up, every pending quantity is positive, and no order item
    is ever written with a quantity of zero or less.  (The product under
    such an id need not be the one of start-up: see
    [button_of_deleted_product].) *)
Theorem buttons_sell_startup_products (es : list event) :
  Forall button_press es →
  let app := run es init in
  (∀ pid qty, (pid, qty) ∈ cart app →
     0 < qty ∧ is_Some (products (working (app_session init)) !! pid))
  ∧ Forall (λ it, 0 < OrderItem.quantity it)
           (order_items (working (app_session app))).
Proof.
  intros Hes. cbn zeta.
  assert (Hrun : ∀ app, sold_by_buttons app → sold_by_buttons (run es app)).
  { induction Hes as [|e es He Hes IH]; intros app Hok; [done |].
    apply IH. by apply handle_sold_by_buttons. }
  destruct (Hrun init) as [Hcart Hitems]; [by split |].
  split; [|done]. intros pid qty Hin.
  rewrite Forall_forall in Hcart. by apply Hcart in Hin.
Qed.

Lemma buttons_sell_startup_products_witness :
  let app := run [AddToCart 1 half; AddToCart 3 1; Checkout noon;
                  AddProduct (Some "Lassi") (Some (Q2Qc 80)) (Some (Q2Qc 20));
                  AddToCart 1 1] init in
  (∀ pid qty, (pid, qty) ∈ cart app →
     0 < qty ∧ is_Some (products (working (app_session init)) !! pid))
  ∧ Forall (λ it, 0 < OrderItem.quantity it)
           (order_items (working (app_session app))).
Proof.
  apply (buttons_sell_startup_products
           [AddToCart 1 half; AddToCart 3 1; Checkout noon;
            AddProduct (Some "Lassi") (Some (Q2Qc 80)) (Some (Q2Qc 20));
            AddToCart 1 1]).
  repeat (apply Forall_cons; split); try exact I; try apply Forall_nil_2;
    eexists; vm_compute;
    repeat (first [apply list_elem_of_here | apply list_elem_of_further]).
Defined.

(** ** The cart across operations *)



(** X13.  A checkout empties the cart (and the list of its lines) when it
    hands out a receipt, and only then: after any other outcome the cart
    is what it was. *)
Theorem checkout_cart_fate (now : datetime) (app : POSApp) :
  let r := _checkout now app in
  match r.2 with
  | Receipt _ _ => cart r.1 = [] ∧ cart_keys r.1 = []
  | _ => cart r.1 = cart app ∧ cart_keys r.1 = cart_keys app
  end.
Proof.
  cbn zeta. unfold _checkout. destruct (cart app) as [|e c] eqn:Hcart.
  { by cbn; rewrite Hcart. }
  destruct (add_order _ _) as [order t].
  destruct (checkout_loop _ _ _ _) as [tl [early|tot]] eqn:Hloop.
  - cbn [fst snd with_session cart cart_keys].
    by apply checkout_loop_early in Hloop as [->|[nm ->]].
  - by destruct (save_receipt _ _).
Qed.

(** ** Every order accounts for its items, or was abandoned *)

Lemma checkout_loop_created oid (entries : Cart) tot t :
  ∃ created,
    order_items (checkout_loop oid entries tot t).1 = order_items t ++ created
    ∧ Forall (λ it, OrderItem.order_id it = oid) created.
Proof.
  revert tot t. induction entries as [|[pid qty] rest IH]; intros tot t.
  - exists []. by rewrite app_nil_r.
  - cbn [checkout_loop]. destruct (get_product t pid) as [p|];
      [|by exists []; rewrite app_nil_r].
    case_bool_decide; [by exists []; rewrite app_nil_r |].
    edestruct IH as (created & -> & Hall).
    eexists (_ :: created). cbn [add_item order_items].
    rewrite <-app_assoc. split; [done |]. by apply Forall_cons.
Qed.

Lemma accounted_ext t t' :
  orders t' = orders t → order_items t' = order_items t →
  accounted t → accounted t'.
Proof. unfold accounted, items_of. by intros -> ->. Qed.

Lemma items_of_other_order (old created : list OrderItem) oid oid' :
  Forall (λ it, OrderItem.order_id it = oid) created → oid' ≠ oid →
  filter (λ it, OrderItem.order_id it = oid') (old ++ created)
  = filter (λ it, OrderItem.order_id it = oid') old.
Proof.
  intros Hcreated Hne. rewrite filter_app, (filter_none _ created).
  - by rewrite app_nil_r.
  - eapply Forall_impl; [exact Hcreated |]. intros it -> Heq. by apply Hne.
Qed.

Lemma items_of_new_order t (created : list OrderItem) :
  fk_orders t →
  let oid := next_rowid (Order.id <$> orders t) in
  Forall (λ it, OrderItem.order_id it = oid) created →
  filter (λ it, OrderItem.order_id it = oid) (order_items t ++ created)
  = created.
Proof.
  intros Hfk oid Hcreated.
  rewrite filter_app, filter_none, filter_all; try done.
  eapply Forall_impl; [exact Hfk |]. intros it Hin Heq.
  apply (next_rowid_fresh (Order.id <$> orders t)). fold oid.
  by rewrite <-Heq.
Qed.

Lemma checkout_accounted now app :
  fk_orders (working (app_session app)) →
  accounted (working (app_session app)) →
  accounted (working (app_session (_checkout now app).1)).
Proof.
  intros Hfk Hacc. unfold _checkout. destruct (cart app) as [|e c]; [done |].
  cbn [add_order commit working committed Order.id Order.timestamp].
  set (t := working (app_session app)) in *.
  set (oid := next_rowid (Order.id <$> orders t)).
  set (t0 := {| products := products t |}).
  pose proof (checkout_loop_products_only oid (e :: c) 0 t0) as Horders.
  destruct (checkout_loop_created oid (e :: c) 0 t0)
    as (created & Hitems & Hcreated).
  pose proof (checkout_loop_items oid (e :: c) 0 t0) as Hsum.
  pose proof (set_total_new_order now) as Hnew.
  assert (Hold : ∀ tl' : Tables,
             order_items tl' = order_items t ++ created →
             Forall (λ o, Order.total o
                          = fsum (OrderItem.line_total
                                    <$> items_of tl' (Order.id o))
                          ∨ Order.total o = 0)
                    (orders t)).
  { intros tl' Htl'. unfold accounted in Hacc.
    rewrite Forall_forall in Hacc |- *. intros o Hin.
    unfold items_of. rewrite Htl', (items_of_other_order _ _ oid);
      [by apply Hacc | done |].
    intros Heq. apply (next_rowid_fresh (Order.id <$> orders t)).
    fold oid. rewrite <-Heq. by apply list_elem_of_fmap_2. }
  destruct (checkout_loop oid (e :: c) 0 t0) as [tl [early|tot]];
    cbn [fst] in Horders, Hitems.
  - cbn [fst with_session app_session working]. unfold accounted.
    rewrite Horders. unfold t0 at 1. cbn [orders].
    apply Forall_app. split; [by apply Hold |].
    apply Forall_singleton. by right.
  - assert (Hacc' : accounted (set_total oid tot tl)).
    { unfold accounted. specialize (Hnew tot t). cbn zeta in Hnew.
      cbn [add_order fst snd Order.id] in Hnew. fold oid in Hnew.
      unfold t0 in Horders.
      cbn [set_total orders] in Hnew, Horders |- *.
      rewrite Horders, Hnew. apply Forall_app. split; [by apply Hold |].
      apply Forall_singleton. left. cbn [Order.total Order.id].
      destruct (Hsum tl tot eq_refl)
        as (created' & Hitems' & _ & _ & ->).
      rewrite Hitems in Hitems'. apply app_inv_head in Hitems' as <-.
      unfold items_of. cbn [set_total order_items]. rewrite Hitems.
      unfold t0. cbn [order_items].
      pose proof (items_of_new_order t created Hfk Hcreated) as Hmine.
      cbn zeta in Hmine. fold oid in Hmine. by rewrite Hmine. }
    by destruct (save_receipt _ _).
Qed.

Lemma handle_accounted e app :
  wf app → accounted (working (app_session app)) →
  accounted (working (app_session (handle e app).1)).
Proof.
  intros [Hfk _] Hacc.
  destruct e as [pid qty|sel|confirm|nm price st|selected confirm|now];
    cbn [handle].
  - by rewrite add_to_cart_session.
  - unfold _remove_selected. destruct sel as [idx|]; [|done].
    destruct (cart_keys app !! idx) as [pid|]; [|done].
    destruct (cart_del _ pid); [|done].
    by rewrite update_cart_display_session.
  - unfold _clear_cart. destruct confirm; [|done].
    by rewrite update_cart_display_session.
  - unfold _add_product. destruct nm as [nm|]; [|done].
    case_decide; [done |].
    destruct price as [price|], st as [st|]; try done.
    cbn [fst with_session app_session commit working].
    by destruct (query_by_name _ nm) as [[pid prod]|].
  - unfold _delete_product. destruct selected as [pid|]; [|done].
    destruct (get_product _ pid); [|done]. by destruct confirm.
  - by apply checkout_accounted.
Qed.

(** X16.  In every state the operator can reach, each order's total is the
    float sum of the line totals of the items that carry its key, added
    one by one to 0.0 in the items' order, unless it is the 0 of an order
    whose checkout was abandoned after the order row had been inserted.
    This is stated of the orders none of whose line totals and sums is an
    infinity ([sums_in_range]). *)
Theorem reachable_accounted (es : list event) :
  accounted_in_range (working (app_session (run es init))).
Proof.
  assert (Hrun : ∀ app, wf app → accounted (working (app_session app)) →
                        accounted (working (app_session (run es app)))).
  { induction es as [|e es IH]; intros app Hwf Hacc; [done |].
    apply IH; [by apply handle_wf | by apply handle_accounted]. }
  eapply Forall_impl.
  - apply Hrun; [|apply Forall_nil_2].
    split; [apply Forall_nil_2 | apply NoDup_nil_2].
  - intros o Hacc. cbn beta zeta. intros _. exact Hacc.
Qed.

(** ** The general statements above, at concrete states *)

Lemma update_cart_display_spec_witness :
  let r := update_cart_display stale_cart in
  let t := working (app_session stale_cart) in
  cart r.1 = cart stale_cart ∧ app_session r.1 = app_session stale_cart
  ∧ keys_ok r.1
  ∧ ((∀ k, k ∈ (cart stale_cart).*1 → is_Some (get_product t k))
     → r.2 = Returned ∧ cart_keys r.1 = (cart stale_cart).*1)
  ∧ (∀ k, k ∈ (cart stale_cart).*1 → get_product t k = None
     → r.2 = Raised AttributeError ∧ k ∉ cart_keys r.1).
Proof. apply (update_cart_display_spec stale_cart). Defined.

Lemma seed_only_fills_empty_catalog_witness :
  (products empty_tables = ∅ →
   products (seed empty_tables) = products (working session))
  ∧ (products empty_tables ≠ ∅ → seed empty_tables = empty_tables)
  ∧ seed (seed empty_tables) = seed empty_tables
  ∧ orders (seed empty_tables) = orders empty_tables
  ∧ order_items (seed empty_tables) = order_items empty_tables.
Proof. apply (seed_only_fills_empty_catalog empty_tables). Defined.

(** X18.  In every state the operator can reach, each order item carries the key
    of an existing order, the cart has one entry per product, and the
    lines of the cart list are the cart's first keys, in order. *)
Theorem reachable_well_formed (es : list event) :
  wf (run es init) ∧ keys_ok (run es init).
Proof. split; [apply reachable_wf | apply reachable_keys_ok]. Qed.

(** The id of a deleted product can be given to a new one: after Desi Ghee
    (id 7, the highest) is deleted and Lassi is added, the button that was
    built for Desi Ghee puts Lassi in the cart, and sells it. *)
Example button_of_deleted_product :
  let app := run [DeleteProduct (Some 7%Z) true;
                  AddProduct (Some "Lassi") (Some (Q2Qc 80)) (Some (Q2Qc 20));
                  AddToCart 7 1] init in
  (∃ text, (7%Z, Q2Qc 1, text)
           ∈ sale_buttons (working (app_session init)))
  ∧ Product.name <$> get_product (working (app_session init)) 7
    = Some "Desi Ghee (250g)"
  ∧ Product.name <$> get_product (working (app_session app)) 7
    = Some "Lassi"
  ∧ (cart app).*1 = [7%Z]
  ∧ ∃ order text, (_checkout noon app).2 = Receipt order text.
Proof.
  cbn zeta. split_and!; try (vm_compute; reflexivity).
  - eexists. vm_compute.
    repeat (first [apply list_elem_of_here | apply list_elem_of_further]).
  - eexists _, _. vm_compute. reflexivity.
Qed.
